(** * Module discovery, validation and reconciliation (infotecha)

    A shallow embedding of [scripts/scan-modules.js] and
    [scripts/validate-module.js]: the JavaScript values the scanner handles,
    the exceptions its property accesses can raise, the scanner's cache, the
    remote repository client seen through the replies it gets, and the
    conversion of a module descriptor into a legacy catalog entry.

    Conventions of the embedding:
    - a JavaScript string is a [string]; the code only compares strings,
      concatenates them, tests them for emptiness and for the prefix [mod_],
      and replaces [-] by [_], all of which are uniform in the alphabet;
    - a JavaScript number is kept abstract ([Runtime]): the code tests numbers
      for truthiness, compares and prints them, and never computes with them;
    - an object lists its own properties in enumeration order (the order of
      [Object.values]); an object obtained from [JSON.parse] has no accessor,
      no callable property and the prototype [Object.prototype];
    - a decoded file is seen through the two things the code does with it:
      test it for emptiness and hand it to [JSON.parse] ([text]);
    - console output is not modelled, except for the warnings that
      [validateModule] prints. *)

From Stdlib Require Import ZArith String Ascii List Bool Lia DecimalString.
From stdpp Require Import gmap strings list.

Local Open Scope Z_scope.
Set Warnings "-register-all".

(** ** The language runtime *)

(** The numbers of JavaScript, and what the scanner needs from them. Every
    theorem below holds for every runtime. *)
Class Numbers := number : Type.

Class Runtime `{Numbers} := {
  (** the number with a given natural value *)
  num_of_nat : nat -> number;
  num_nan : number;
  (** StringToNumber *)
  num_of_string : string -> number;
  (** ToBoolean on numbers: false for +0, -0 and NaN *)
  num_truthy : number -> bool;
  (** Number::equal *)
  num_strict_eq : number -> number -> bool;
  (** Number::lessThan, false when an operand is NaN *)
  num_lt : number -> number -> bool;
  (** Number::toString *)
  num_to_string : number -> string
}.

(** ** Exceptions *)

Inductive error :=
| TypeError (message : string)
| SyntaxError (message : string).

Definition message (e : error) : string :=
  match e with
  | TypeError m => m
  | SyntaxError m => m
  end.

(** The outcome of evaluating an expression: a value or a thrown exception. *)
Inductive completion (A : Type) :=
| Normal (a : A)
| Throw (e : error).
Arguments Normal {A} a.
Arguments Throw {A} e.

Definition bind {A B : Type} (c : completion A) (k : A -> completion B) : completion B :=
  match c with
  | Normal a => k a
  | Throw e => Throw e
  end.

Notation "'let*' x ':=' c 'in' k" := (bind c (fun x => k))
  (at level 10, x name, c at level 100, k at level 200).

Definition returns {A : Type} (c : completion A) : Prop := exists a, c = Normal a.

(** ** Strings *)

(** The double quote, which the warnings of the validator print. *)
Definition dq : string := String (ascii_of_nat 34) EmptyString.

(** [s.startsWith(p)] *)
Definition startsWith (p s : string) : bool := String.prefix p s.

(** [s.replace(/-/g, '_')] *)
Fixpoint replace_dashes (s : string) : string :=
  match s with
  | EmptyString => EmptyString
  | String c rest =>
      String (if Ascii.eqb c "-"%char then "_"%char else c) (replace_dashes rest)
  end.

(** The code units of a string, each as a string of its own. *)
Fixpoint code_units (s : string) : list string :=
  match s with
  | EmptyString => []
  | String c rest => String c EmptyString :: code_units rest
  end.

Section Values.
Context {numbers : Numbers} {rt : Runtime}.

(** ** Values *)

Inductive value :=
| VUndefined
| VNull
| VBool (b : bool)
| VNumber (n : number)
| VString (s : string)
| VArray (items : list value)
| VObject (props : list (string * value)).

(** ToBoolean *)
Definition truthy (v : value) : bool :=
  match v with
  | VUndefined | VNull => false
  | VBool b => b
  | VNumber n => num_truthy n
  | VString s => negb (String.eqb s "")
  | VArray _ | VObject _ => true
  end.

Definition nullish (v : value) : bool :=
  match v with
  | VUndefined | VNull => true
  | _ => false
  end.

(** [a || b]: the right operand is evaluated (and may throw) only when the
    left one is falsy. Rocq evaluates neither argument eagerly, so passing the
    completion of the right operand is the short circuit. *)
Definition or_else (a : value) (b : completion value) : completion value :=
  if truthy a then Normal a else b.

(** [a === b]. Both operands are always distinct nodes of parsed documents or
    fresh strings, so two objects or two arrays are never the same reference. *)
Definition strict_eq (a b : value) : bool :=
  match a, b with
  | VUndefined, VUndefined => true
  | VNull, VNull => true
  | VBool x, VBool y => Bool.eqb x y
  | VNumber x, VNumber y => num_strict_eq x y
  | VString x, VString y => String.eqb x y
  | _, _ => false
  end.

(** The first own property named [k]. *)
Fixpoint lookup_prop (k : string) (props : list (string * value)) : option value :=
  match props with
  | [] => None
  | (k', v) :: rest => if String.eqb k' k then Some v else lookup_prop k rest
  end.

(** [o[k] = v] on the property list of an object: an existing property keeps
    its place, a new one goes last. *)
Fixpoint assign_prop (k : string) (v : value) (props : list (string * value))
  : list (string * value) :=
  match props with
  | [] => [(k, v)]
  | (k', v') :: rest =>
      if String.eqb k' k then (k, v) :: rest else (k', v') :: assign_prop k v rest
  end.

(** [v.k] for a [v] that is neither [null] nor [undefined]. The names the
    scanner reads are not properties of any prototype, except [length] of
    arrays and strings. *)
Definition own (v : value) (k : string) : value :=
  match v with
  | VObject props => default VUndefined (lookup_prop k props)
  | VArray items =>
      if String.eqb k "length" then VNumber (num_of_nat (length items)) else VUndefined
  | VString s =>
      if String.eqb k "length" then VNumber (num_of_nat (String.length s)) else VUndefined
  | _ => VUndefined
  end.

Definition type_name (v : value) : string :=
  match v with
  | VNull => "null"
  | _ => "undefined"
  end.

(** [v.k] *)
Definition get (v : value) (k : string) : completion value :=
  if nullish v
  then Throw (TypeError ("Cannot read properties of " +:+ type_name v
                         +:+ " (reading '" +:+ k +:+ "')"))
  else Normal (own v k).

(** [v?.k] *)
Definition get_opt (v : value) (k : string) : value :=
  if nullish v then VUndefined else own v k.

(** ToString, as a template literal applies it. An object with an own
    property [toString] has no callable conversion left. *)
Fixpoint to_string (v : value) : completion string :=
  match v with
  | VUndefined => Normal "undefined"
  | VNull => Normal "null"
  | VBool b => Normal (if b then "true" else "false")
  | VNumber n => Normal (num_to_string n)
  | VString s => Normal s
  | VArray items =>
      (fix join (l : list value) : completion string :=
         match l with
         | [] => Normal ""
         | x :: rest =>
             let* s := (if nullish x then Normal "" else to_string x) in
             match rest with
             | [] => Normal s
             | _ => let* r := join rest in Normal (s +:+ "," +:+ r)
             end
         end) items
  | VObject props =>
      match lookup_prop "toString" props with
      | Some _ => Throw (TypeError "Cannot convert object to primitive value")
      | None => Normal "[object Object]"
      end
  end.

(** ToNumber *)
Definition to_number (v : value) : completion number :=
  match v with
  | VUndefined => Normal num_nan
  | VNull => Normal (num_of_nat 0)
  | VBool b => Normal (num_of_nat (if b then 1 else 0))
  | VNumber n => Normal n
  | VString s => Normal (num_of_string s)
  | VArray _ | VObject _ => let* s := to_string v in Normal (num_of_string s)
  end.

(** [v < k] for a number literal [k] *)
Definition less_than (v : value) (k : nat) : completion bool :=
  let* n := to_number v in Normal (num_lt n (num_of_nat k)).

(** [name.replace(/-/g, '_')], where [name] is the value of a property: only
    a string has a method [replace]. *)
Definition call_replace (name : value) : completion string :=
  match name with
  | VString s => Normal (replace_dashes s)
  | VUndefined | VNull =>
      Throw (TypeError ("Cannot read properties of " +:+ type_name name
                        +:+ " (reading 'replace')"))
  | _ => Throw (TypeError "moduleData.name.replace is not a function")
  end.

(** [Object.values(v)] for a truthy [v] *)
Definition Object_values (v : value) : list value :=
  match v with
  | VObject props => map snd props
  | VArray items => items
  | VString s => map VString (code_units s)
  | _ => []
  end.

(** [values.find(p)], where evaluating [p] may throw *)
Fixpoint find (p : value -> completion bool) (values : list value) : completion value :=
  match values with
  | [] => Normal VUndefined
  | m :: rest =>
      let* hit := p m in
      if hit then Normal m else find p rest
  end.

End Values.

Section Scanner.
Context {numbers : Numbers} {rt : Runtime}.

(** ** Scan results *)

Inductive Source := ModuleJson | Central.

(** ['module.json'] and ['central'] *)
Definition source_tag (s : Source) : string :=
  match s with
  | ModuleJson => "module.json"
  | Central => "central"
  end.

(** [{success: true, source, data}] or [{success: false, error}] *)
Inductive ScanResult :=
| Success (source : Source) (data : value)
| Failure (error : string).

Definition success (r : ScanResult) : bool :=
  match r with
  | Success _ _ => true
  | Failure _ => false
  end.

(** [{repository: repo.name, ...result}] *)
Record RepositoryResult := {
  repository : string;
  result : ScanResult
}.

(** ** The world outside the scanner *)

(** A decoded file, seen through what the code does with it. *)
Inductive text :=
| EmptyText                       (** the empty string, which is falsy *)
| Malformed (message : string)    (** non-empty, [JSON.parse] throws this *)
| Document (v : value).           (** non-empty, [JSON.parse] returns [v] *)

Definition text_truthy (t : text) : bool :=
  match t with
  | EmptyText => false
  | _ => true
  end.

Definition JSON_parse (t : text) : completion value :=
  match t with
  | EmptyText => Throw (SyntaxError "Unexpected end of JSON input")
  | Malformed m => Throw (SyntaxError m)
  | Document v => Normal v
  end.

(** What [GitHubClient.request] makes of a contents request. *)
Inductive contents_reply :=
| ContentsRejected (message : string)  (** transport error, status >= 400, unparsable body *)
| ContentsWithout                      (** resolved, without a truthy [content] *)
| ContentsOf (decoded : text).         (** resolved, [content] decodes to this text *)

(** What [GitHubClient.request] makes of the listing request. *)
Inductive listing_reply :=
| ListingRejected (message : string)
| ListingOf (body : value).

(** The central [modules.json] on disk. *)
Inductive central_file :=
| CentralMissing                       (** [fs.existsSync] is false *)
| CentralUnreadable (message : string) (** [fs.readFileSync] throws *)
| CentralText (content : text).

Record World := {
  listing : listing_reply;
  contents : string -> contents_reply;  (** by repository name *)
  central : central_file;
  latency : Z                           (** time a request takes, in ms *)
}.

(** ** The scanner and its process *)

(** [{data, timestamp}] *)
Record CacheEntry := {
  data : ScanResult;
  timestamp : Z
}.

Record Process := {
  cache : gmap string CacheEntry;   (** [this.cache] *)
  now : Z;                          (** what [Date.now()] reads *)
  requests : list string            (** paths requested from the API, latest first *)
}.

Definition ORG_NAME : string := "info-tech-io".

(** [this.cacheExpiry = 5 * 60 * 1000] *)
Definition cacheExpiry : Z := 5 * 60 * 1000.

(** [new ModuleScanner()] in a process whose clock reads [t] *)
Definition new_scanner (t : Z) : Process :=
  {| cache := ∅; now := t; requests := [] |}.

(** Time passing between two calls. *)
Definition elapse (d : Z) (p : Process) : Process :=
  {| cache := cache p; now := now p + d; requests := requests p |}.

(** Awaiting [GitHubClient.request(path)]. *)
Definition request (w : World) (path : string) (p : Process) : Process :=
  {| cache := cache p; now := now p + latency w; requests := path :: requests p |}.

(** [this.cache.set(key, {data, timestamp: Date.now()})] *)
Definition cache_set (key : string) (d : ScanResult) (p : Process) : Process :=
  {| cache := <[key := {| data := d; timestamp := now p |}]> (cache p);
     now := now p; requests := requests p |}.

(** *** GitHubClient *)

(** The predicate of the filter in [getRepositories]. *)
Definition is_mod_repo (repo : value) : completion bool :=
  let* name := get repo "name" in
  match name with
  | VString s => Normal (startsWith "mod_" s)
  | VUndefined | VNull =>
      Throw (TypeError ("Cannot read properties of " +:+ type_name name
                        +:+ " (reading 'startsWith')"))
  | _ => Throw (TypeError "repo.name.startsWith is not a function")
  end.

(** [repos.filter(repo => repo.name.startsWith('mod_'))]; the repositories
    that are kept are returned by name, which is all the scanner reads of
    them. *)
Fixpoint filter_mod_repos (repos : list value) : completion (list string) :=
  match repos with
  | [] => Normal []
  | repo :: rest =>
      let* keep := is_mod_repo repo in
      let* kept := filter_mod_repos rest in
      Normal (if keep
              then match own repo "name" with VString s => s :: kept | _ => kept end
              else kept)
  end.

Definition listing_path (org : string) : string :=
  "/orgs/" +:+ org +:+ "/repos?type=all&per_page=100".

(** [getRepositories(org)]: any exception yields the empty list. *)
Definition getRepositories (w : World) (org : string) (p : Process)
  : list string * Process :=
  let p' := request w (listing_path org) p in
  match listing w with
  | ListingRejected _ => ([], p')
  | ListingOf (VArray repos) =>
      match filter_mod_repos repos with
      | Normal names => (names, p')
      | Throw _ => ([], p')
      end
  | ListingOf _ => ([], p')
  end.

Definition contents_path (org repo path branch : string) : string :=
  "/repos/" +:+ org +:+ "/" +:+ repo +:+ "/contents/" +:+ path +:+ "?ref=" +:+ branch.

(** [getFileContent(org, repo, path)]: the decoded text, or [null]. *)
Definition getFileContent (w : World) (org repo path : string) (p : Process)
  : option text * Process :=
  let p' := request w (contents_path org repo path "main") p in
  match contents w repo with
  | ContentsOf t => (Some t, p')
  | ContentsWithout => (None, p')
  | ContentsRejected _ => (None, p')
  end.

(** *** ModuleScanner *)

(** [{ modules: [] }] *)
Definition no_central_modules : value := VObject [("modules", VArray [])].

Definition loadCentralModules (w : World) : value :=
  match central w with
  | CentralText t =>
      match JSON_parse t with
      | Normal v => v
      | Throw _ => no_central_modules
      end
  | CentralMissing | CentralUnreadable _ => no_central_modules
  end.

(** [m => m.content_repo === moduleName] *)
Definition matches (moduleName : string) (m : value) : completion bool :=
  let* repo := get m "content_repo" in
  Normal (strict_eq repo (VString moduleName)).

(** The fallback of [scanModule], from [loadCentralModules] on. *)
Definition scanCentral (w : World) (moduleName : string) : completion ScanResult :=
  let centralModules := loadCentralModules w in
  let* modules := get centralModules "modules" in
  let* centralModule :=
    (if truthy modules
     then find (matches moduleName) (Object_values modules)
     else Normal VNull) in
  if truthy centralModule
  then Normal (Success Central centralModule)
  else Normal (Failure "No configuration found").

Definition cacheKey (moduleName : string) : string := "module:" +:+ moduleName.

(** The body of [scanModule] after a cache miss: the [try] block and its
    [catch]. *)
Definition scanFresh (w : World) (moduleName : string) (p : Process)
  : ScanResult * Process :=
  let (moduleJsonContent, p1) := getFileContent w ORG_NAME moduleName "module.json" p in
  let fallback :=
    match scanCentral w moduleName with
    | Normal r => (r, p1)
    | Throw e => (Failure (message e), p1)
    end in
  match moduleJsonContent with
  | Some t =>
      if text_truthy t
      then match JSON_parse t with
           | Normal moduleData =>
               (Success ModuleJson moduleData,
                cache_set (cacheKey moduleName) (Success ModuleJson moduleData) p1)
           | Throw e => (Failure (message e), p1)
           end
      else fallback
  | None => fallback
  end.

Definition scanModule (w : World) (moduleName : string) (p : Process)
  : ScanResult * Process :=
  match cache p !! cacheKey moduleName with
  | Some cached =>
      if now p - timestamp cached <? cacheExpiry
      then (data cached, p)
      else scanFresh w moduleName p
  | None => scanFresh w moduleName p
  end.

(** The loop of [scanAllModules]. *)
Fixpoint scanEach (w : World) (repos : list string) (p : Process)
  : list RepositoryResult * Process :=
  match repos with
  | [] => ([], p)
  | repo :: rest =>
      let (r, p1) := scanModule w repo p in
      let (results, p2) := scanEach w rest p1 in
      ({| repository := repo; result := r |} :: results, p2)
  end.

Definition scanAllModules (w : World) (p : Process)
  : list RepositoryResult * Process :=
  let (repos, p1) := getRepositories w ORG_NAME p in
  scanEach w repos p1.

End Scanner.

Section Catalog.
Context {numbers : Numbers} {rt : Runtime}.

(** ** The legacy format and the unified catalog *)

(** [`mod_${moduleData.name.replace(/-/g, '_')}`] *)
Definition derived_repository (moduleData : value) : completion value :=
  let* name := get moduleData "name" in
  let* replaced := call_replace name in
  Normal (VString ("mod_" +:+ replaced)).

(** [`https://${moduleData.name}.infotecha.ru`] *)
Definition derived_url (moduleData : value) : completion value :=
  let* name := get moduleData "name" in
  let* s := to_string name in
  Normal (VString ("https://" +:+ s +:+ ".infotecha.ru")).

Definition convertToLegacyFormat (moduleData : value) : completion value :=
  let* name := get moduleData "name" in
  let* title := get moduleData "title" in
  let* description := get moduleData "description" in
  let* deployment := get moduleData "deployment" in
  let* subdomain := or_else (get_opt deployment "subdomain") (get moduleData "name") in
  let* deployment' := get moduleData "deployment" in
  let* repository :=
    or_else (get_opt deployment' "repository") (derived_repository moduleData) in
  let* urls := get moduleData "urls" in
  let* url := or_else (get_opt urls "production") (derived_url moduleData) in
  let* version := get moduleData "version" in
  let* type := get moduleData "type" in
  let* metadata := get moduleData "metadata" in
  let difficulty := get_opt metadata "difficulty" in
  let* metadata' := get moduleData "metadata" in
  let estimated_time := get_opt metadata' "estimated_time" in
  let* metadata'' := get moduleData "metadata" in
  let* tags := or_else (get_opt metadata'' "tags") (Normal (VArray [])) in
  let* status := get moduleData "status" in
  let lifecycle := get_opt status "lifecycle" in
  let* status' := get moduleData "status" in
  let last_updated := get_opt status' "last_updated" in
  let* hugo_config := get moduleData "hugo_config" in
  Normal (VObject [
    ("name", name);
    ("title", title);
    ("description", description);
    ("subdomain", subdomain);
    ("repository", repository);
    ("url", url);
    ("version", version);
    ("type", type);
    ("difficulty", difficulty);
    ("estimated_time", estimated_time);
    ("tags", tags);
    ("lifecycle", lifecycle);
    ("last_updated", last_updated);
    ("hugo_config", hugo_config)
  ]).

(** [o[k] = v] in strict code (a class body): a primitive takes no property.
    An array takes it, outside of its elements. *)
Definition set_prop (o : value) (k : string) (v : value) : completion value :=
  match o with
  | VObject props => Normal (VObject (assign_prop k v props))
  | VArray items => Normal (VArray items)
  | VUndefined | VNull =>
      Throw (TypeError ("Cannot set properties of " +:+ type_name o
                        +:+ " (setting '" +:+ k +:+ "')"))
  | VBool b =>
      Throw (TypeError ("Cannot create property '" +:+ k +:+ "' on boolean '"
                        +:+ (if b then "true" else "false") +:+ "'"))
  | VNumber n =>
      Throw (TypeError ("Cannot create property '" +:+ k +:+ "' on number '"
                        +:+ num_to_string n +:+ "'"))
  | VString s =>
      Throw (TypeError ("Cannot create property '" +:+ k +:+ "' on string '"
                        +:+ s +:+ "'"))
  end.

Record UnifiedCatalog := {
  version : string;
  generated_at : Z;    (** the time value of [new Date()], stored as its ISO string *)
  build_system : string;
  modules : list value
}.

(** What one scan result adds to [unifiedModules.modules]: an entry, or
    nothing when the result is skipped. *)
Definition catalogEntry (r : ScanResult) : completion (option value) :=
  match r with
  | Success ModuleJson d =>
      let* legacyFormat := convertToLegacyFormat d in
      let* tagged := set_prop legacyFormat "_source" (VString "module.json") in
      Normal (Some tagged)
  | Success Central d =>
      let* tagged := set_prop d "_source" (VString "central") in
      Normal (Some tagged)
  | Failure _ => Normal None
  end.

(** The loop of [generateUnifiedModules]. *)
Fixpoint collectModules (scanResults : list RepositoryResult) : completion (list value) :=
  match scanResults with
  | [] => Normal []
  | r :: rest =>
      let* entry := catalogEntry (result r) in
      let* entries := collectModules rest in
      Normal (match entry with
              | Some e => e :: entries
              | None => entries
              end)
  end.

Definition generateUnifiedModules (w : World) (p : Process)
  : completion UnifiedCatalog * Process :=
  let (scanResults, p1) := scanAllModules w p in
  (let* entries := collectModules scanResults in
   Normal {| version := "2.0"; generated_at := now p1;
             build_system := "hybrid"; modules := entries |},
   p1).

(** The subdomain of the entry, as the converter derives it: the explicit
    one when it is truthy, the name otherwise. *)
Definition subdomain_of (d : value) : value :=
  let explicit := get_opt (own d "deployment") "subdomain" in
  if truthy explicit then explicit else own d "name".

End Catalog.

Section Validator.
Context {numbers : Numbers} {rt : Runtime}.

(** ** ModuleValidator *)

(** [this.validate]: the schema of [schemas/module.json] compiled by Ajv. *)
Variable validate : value -> bool.

Definition is_string (v : value) : bool :=
  match v with
  | VString _ => true
  | _ => false
  end.

Definition is_array (v : value) : bool :=
  match v with
  | VArray _ => true
  | _ => false
  end.

(** Modelled from the spec: the schema [schemas/module.json], which the
    validator loads, is missing. This is the part of it that the convention
    checks rely on, after [docs/MODULE_JSON_SPEC.md]: [name],
    [deployment.subdomain], [deployment.repository], [urls.production] and
    [hugo_config.hugo_version] are required strings and [metadata.tags] is a
    required array. *)
Definition required_types (d : value) : bool :=
  is_string (own d "name")
  && is_string (own (own d "deployment") "subdomain")
  && is_string (own (own d "deployment") "repository")
  && is_string (own (own d "urls") "production")
  && is_string (own (own d "hugo_config") "hugo_version")
  && is_array (own (own d "metadata") "tags").

(** [`Subdomain "${subdomain}" doesn't match module name "${name}"`] *)
Definition subdomain_warning (subdomain name : string) : string :=
  "Subdomain " +:+ dq +:+ subdomain +:+ dq
  +:+ " doesn't match module name " +:+ dq +:+ name +:+ dq.

Definition repository_warning (repository expected : string) : string :=
  "Repository name " +:+ dq +:+ repository +:+ dq
  +:+ " doesn't follow convention. Expected: " +:+ dq +:+ expected +:+ dq.

Definition url_warning (url expected : string) : string :=
  "Production URL " +:+ dq +:+ url +:+ dq
  +:+ " doesn't match expected format: " +:+ dq +:+ expected +:+ dq.

Definition license_warning : string :=
  "License not specified - consider adding one".

Definition hugo_warning (hugo_version : string) : string :=
  "Hugo version " +:+ hugo_version
  +:+ " differs from current platform version 0.148.0".

Definition tags_warning : string :=
  "Consider adding more tags (3-5 recommended) for better categorization".

(** Each check returns the warnings it pushes. *)
Definition check_subdomain (moduleData : value) : completion (list string) :=
  let* deployment := get moduleData "deployment" in
  let* name := get moduleData "name" in
  if negb (strict_eq (get_opt deployment "subdomain") name)
  then
    let* s := to_string (get_opt deployment "subdomain") in
    let* n := to_string name in
    Normal [subdomain_warning s n]
  else Normal [].

Definition check_repository (moduleData : value) : completion (list string) :=
  let* name := get moduleData "name" in
  let* replaced := call_replace name in
  let expectedRepo := "mod_" +:+ replaced in
  let* deployment := get moduleData "deployment" in
  if negb (strict_eq (get_opt deployment "repository") (VString expectedRepo))
  then
    let* r := to_string (get_opt deployment "repository") in
    Normal [repository_warning r expectedRepo]
  else Normal [].

Definition check_url (moduleData : value) : completion (list string) :=
  let* name := get moduleData "name" in
  let* n := to_string name in
  let expectedUrl := "https://" +:+ n +:+ ".infotecha.ru" in
  let* urls := get moduleData "urls" in
  if negb (strict_eq (get_opt urls "production") (VString expectedUrl))
  then
    let* u := to_string (get_opt urls "production") in
    Normal [url_warning u expectedUrl]
  else Normal [].

Definition check_license (moduleData : value) : completion (list string) :=
  let* metadata := get moduleData "metadata" in
  if negb (truthy (get_opt metadata "license"))
  then Normal [license_warning]
  else Normal [].

Definition check_hugo_version (moduleData : value) : completion (list string) :=
  let* hugo_config := get moduleData "hugo_config" in
  if truthy (get_opt hugo_config "hugo_version")
  then
    let* hugo_config' := get moduleData "hugo_config" in
    let* hugo_version := get hugo_config' "hugo_version" in
    if negb (strict_eq hugo_version (VString "0.148.0"))
    then
      let* h := to_string hugo_version in
      Normal [hugo_warning h]
    else Normal []
  else Normal [].

Definition check_tags (moduleData : value) : completion (list string) :=
  let* metadata := get moduleData "metadata" in
  if truthy (get_opt metadata "tags")
  then
    let* metadata' := get moduleData "metadata" in
    let* tags := get metadata' "tags" in
    let* len := get tags "length" in
    let* few := less_than len 3 in
    if few then Normal [tags_warning] else Normal []
  else Normal [].

Definition performSemanticValidation (moduleData : value) : completion (list string) :=
  let* w1 := check_subdomain moduleData in
  let* w2 := check_repository moduleData in
  let* w3 := check_url moduleData in
  let* w4 := check_license moduleData in
  let* w5 := check_hugo_version moduleData in
  let* w6 := check_tags moduleData in
  Normal (w1 ++ w2 ++ w3 ++ w4 ++ w5 ++ w6).

(** [validateModule]: whether the module is valid, and the warnings printed. *)
Definition validateModule (moduleData : value) : completion (bool * list string) :=
  if negb (validate moduleData)
  then Normal (false, [])
  else
    let* warnings := performSemanticValidation moduleData in
    Normal (true, warnings).

(** A warning of the first check. *)
Definition is_subdomain_warning (w : string) : bool := String.prefix "Subdomain " w.

(** A check returns, and none of its warnings is a subdomain warning. *)
Definition quiet (c : completion (list string)) : Prop :=
  exists ws, c = Normal ws /\ Forall (fun w => is_subdomain_warning w = false) ws.

End Validator.

Section Runs.
Context {numbers : Numbers} {rt : Runtime}.

(** ** Sequences of calls on one scanner *)

(** What the cache answers for a module at the current time: the data of an
    entry younger than [cacheExpiry], or nothing. *)
Definition cached (p : Process) (moduleName : string) : option ScanResult :=
  match cache p !! cacheKey moduleName with
  | Some c => if now p - timestamp c <? cacheExpiry then Some (data c) else None
  | None => None
  end.

Definition from_module_json (r : ScanResult) : bool :=
  match r with
  | Success ModuleJson _ => true
  | _ => false
  end.

(** The cache holds results read from a [module.json] only. *)
Definition module_json_cache (p : Process) : Prop :=
  map_Forall (fun _ c => from_module_json (data c) = true) (cache p).

Inductive call :=
| Elapse (d : Z)
| ScanModule (w : World) (moduleName : string)
| ScanAllModules (w : World)
| GenerateUnifiedModules (w : World).

Definition step (c : call) (p : Process) : Process :=
  match c with
  | Elapse d => elapse d p
  | ScanModule w moduleName => snd (scanModule w moduleName p)
  | ScanAllModules w => snd (scanAllModules w p)
  | GenerateUnifiedModules w => snd (generateUnifiedModules w p)
  end.

Definition run (calls : list call) (p : Process) : Process :=
  fold_left (fun q c => step c q) calls p.

(** The process after the contents request of [scanModule]. *)
Definition fetched (w : World) (moduleName : string) (p : Process) : Process :=
  request w (contents_path ORG_NAME moduleName "module.json" "main") p.

(** What the fallback returns once the [catch] of [scanModule] has turned an
    exception into a failed result. *)
Definition fallback (w : World) (moduleName : string) : ScanResult :=
  match scanCentral w moduleName with
  | Normal r => r
  | Throw e => Failure (message e)
  end.

(** Whether the contents request yields no text to parse: the request was
    rejected, the reply holds no content, or the file is empty. *)
Definition no_descriptor (c : contents_reply) : bool :=
  match c with
  | ContentsOf (Document _) | ContentsOf (Malformed _) => false
  | _ => true
  end.

(** What a module resolves to in a world, when nothing is cached for it. *)
Definition resolution (w : World) (moduleName : string) : ScanResult :=
  match contents w moduleName with
  | ContentsOf (Document v) => Success ModuleJson v
  | ContentsOf (Malformed m) => Failure m
  | _ => fallback w moduleName
  end.

(** The cache holds nothing but what the world still holds. *)
Definition cache_agrees (w : World) (p : Process) : Prop :=
  forall moduleName c,
    cache p !! cacheKey moduleName = Some c -> data c = resolution w moduleName.

(** The name a resolved source carries. *)
Definition source_name (r : ScanResult) : value :=
  match r with
  | Success _ d => own d "name"
  | Failure _ => VUndefined
  end.

(** The entries [Object.values] enumerates in the fallback of [scanModule]. *)
Definition central_entries (w : World) : list value :=
  let modules := own (loadCentralModules w) "modules" in
  if truthy modules then Object_values modules else [].

(** Whether the converter returns on the data of a result that was read
    from a [module.json]. *)
Definition converts (r : ScanResult) : bool :=
  match r with
  | Success ModuleJson d =>
      match convertToLegacyFormat d with
      | Normal _ => true
      | Throw _ => false
      end
  | _ => true
  end.

(** The name a catalog entry carries. *)
Definition entry_name (e : value) : value := own e "name".

(** The successful results of a scan, in order. *)
Definition successes (results : list RepositoryResult) : list RepositoryResult :=
  List.filter (fun r => success (result r)) results.

(** The world [w] with another central registry. *)
Definition with_central (c : central_file) (w : World) : World :=
  {| listing := listing w; contents := contents w; central := c; latency := latency w |}.

End Runs.

(** ** A runtime for the scenarios *)

(** Decimal digits, read as a natural number. *)
Fixpoint digits_value (s : string) (acc : Z) : option Z :=
  match s with
  | EmptyString => Some acc
  | String c rest =>
      let n := Z.of_nat (nat_of_ascii c) in
      if (48 <=? n) && (n <=? 57)
      then digits_value rest (10 * acc + (n - 48))
      else None
  end.

(** The integers among the numbers, and NaN. StringToNumber reads unsigned
    decimal literals only; no scenario below converts a string to a number. *)
#[export] Instance integers : Numbers := option Z.

#[export] Instance integer_runtime : Runtime := {|
  num_of_nat n := Some (Z.of_nat n);
  num_nan := None;
  num_of_string s := digits_value s 0;
  num_truthy n := match n with Some z => negb (z =? 0) | None => false end;
  num_strict_eq a b := match a, b with Some x, Some y => x =? y | _, _ => false end;
  num_lt a b := match a, b with Some x, Some y => x <? y | _, _ => false end;
  num_to_string n :=
    match n with
    | Some z => NilZero.string_of_int (Z.to_int z)
    | None => "NaN"
    end
|}.

Module Scenario.

(** An organization of four module repositories. [mod_linux_base] and
    [mod_python] carry a [module.json]; [mod_docker] and [mod_rust] do not;
    the central registry knows all of them but [mod_rust], and [mod_docker]
    twice. *)
Definition repos : value :=
  VArray [ VObject [("name", VString "mod_linux_base")];
           VObject [("name", VString "infotecha")];
           VObject [("name", VString "mod_docker")];
           VObject [("name", VString "mod_rust")];
           VObject [("name", VString "mod_python")] ].

Definition descriptor (name subdomain : string) : value :=
  VObject [
    ("schema_version", VString "1.0");
    ("name", VString name);
    ("title", VString "Course");
    ("deployment", VObject [("subdomain", VString subdomain);
                            ("repository", VString ("mod_" +:+ replace_dashes name))]);
    ("hugo_config", VObject [("hugo_version", VString "0.148.0")]);
    ("metadata", VObject [("license", VString "MIT");
                          ("tags", VArray [VString "linux"; VString "shell"; VString "cli"])]);
    ("urls", VObject [("production", VString ("https://" +:+ name +:+ ".infotecha.ru"))])
  ].

Definition central_entry (name content_repo : string) : value :=
  VObject [("name", VString name); ("content_repo", VString content_repo)].

Definition registry : central_file :=
  CentralText (Document (VObject [
    ("modules", VObject [
       ("linux", central_entry "linux-old" "mod_linux_base");
       ("docker", central_entry "docker" "mod_docker");
       ("docker2", central_entry "docker-copy" "mod_docker");
       ("python", central_entry "python-old" "mod_python") ])])).

Definition not_found : contents_reply :=
  ContentsRejected "GitHub API error 404: Not Found".

Definition hang_up : contents_reply :=
  ContentsRejected "GitHub API request failed: socket hang up".

(** The request for the [module.json] of [mod_docker] fails in transport. *)
Definition files (python : contents_reply) (repo : string) : contents_reply :=
  if String.eqb repo "mod_linux_base"
  then ContentsOf (Document (descriptor "linux-base" "linux-base"))
  else if String.eqb repo "mod_python" then python
  else if String.eqb repo "mod_docker" then hang_up
  else not_found.

(** The organization, with a given reply to the request for the
    [module.json] of [mod_python]. *)
Definition org (python : contents_reply) : World :=
  {| listing := ListingOf repos; contents := files python;
     central := registry; latency := 120 |}.

(** [mod_python] carries a descriptor of its own. *)
Definition plain : World := org (ContentsOf (Document (descriptor "python" "py"))).

(** [mod_python] carries no [module.json]. *)
Definition missing : World := org not_found.

(** The [module.json] of [mod_python] is cut short. *)
Definition broken : World :=
  org (ContentsOf (Malformed "Unexpected end of JSON input")).

(** The [module.json] of [mod_python] is the empty object. *)
Definition unnamed : World := org (ContentsOf (Document (VObject []))).

(** The [module.json] of [mod_python] carries the name of [mod_linux_base]. *)
Definition homonyms : World :=
  org (ContentsOf (Document (descriptor "linux-base" "linux-base"))).

(** A descriptor whose subdomain is present and empty. *)
Definition empty_subdomain : value :=
  VObject [("name", VString "linux-base");
           ("deployment", VObject [("subdomain", VString "")])].

End Scenario.

(** ** Central registries *)

Section Registries.
Context {numbers : Numbers} {rt : Runtime}.

(** A central file that parses to [{modules}]. *)
Definition registry_of (modules : value) : central_file :=
  CentralText (Document (VObject [("modules", modules)])).

(** Whether [loadCentralModules] gets no document out of the central file:
    it is missing, unreadable, empty or malformed. *)
Definition unusable (c : central_file) : bool :=
  match c with
  | CentralText (Document _) => false
  | _ => true
  end.

End Registries.

(** ** The commands of the scanner *)

Section Commands.
Context {numbers : Numbers} {rt : Runtime}.

(** [this.validate] of the validator that [validateAllModules] creates; its
    schema is taken to load. *)
Variable validate : value -> bool.

(** [{repository, valid}] *)
Record ValidationResult := {
  validated : string;
  valid : bool
}.

(** The loop of [validateAllModules]: the results read from a [module.json]
    are validated, the others are passed over. *)
Fixpoint validateEach (scanResults : list RepositoryResult)
  : completion (list ValidationResult) :=
  match scanResults with
  | [] => Normal []
  | r :: rest =>
      match result r with
      | Success ModuleJson d =>
          let* isValid := validateModule validate d in
          let* validationResults := validateEach rest in
          Normal ({| validated := repository r; valid := fst isValid |}
                  :: validationResults)
      | _ => validateEach rest
      end
  end.

Definition validateAllModules (w : World) (p : Process)
  : completion (list ValidationResult) * Process :=
  let (scanResults, p1) := scanAllModules w p in
  (validateEach scanResults, p1).

(** [args.includes(x)] *)
Definition includes (x : string) (args : list string) : bool :=
  existsb (String.eqb x) args.

(** [args.indexOf(x)], [None] standing for -1 *)
Fixpoint indexOf (x : string) (args : list string) : option nat :=
  match args with
  | [] => None
  | a :: rest =>
      if String.eqb a x then Some 0%nat
      else match indexOf x rest with
           | Some i => Some (S i)
           | None => None
           end
  end.

(** The argument after the first occurrence of a flag: [args[i + 1]] when
    [i = args.indexOf(flag)] is not -1, [None] standing for [undefined]. *)
Definition argument_after (flag : string) (args : list string) : option string :=
  match indexOf flag args with
  | Some i => nth_error args (S i)
  | None => None
  end.

(** One module of the pretty listing: the four strings interpolated into
    its lines. *)
Record PrettyRow := {
  row_name : string;
  row_source : string;
  row_title : string;
  row_url : string
}.

(** The body of the [forEach] of the pretty listing. *)
Definition prettyRow (module : value) : completion PrettyRow :=
  let* tag := get module "_source" in
  let* source := or_else tag (Normal (VString "unknown")) in
  let* name := get module "name" in
  let* n := to_string name in
  let* s := to_string source in
  let* title := get module "title" in
  let* t := to_string title in
  let* url := get module "url" in
  let* u := to_string url in
  Normal {| row_name := n; row_source := s; row_title := t; row_url := u |}.

Fixpoint prettyRows (modules : list value) : completion (list PrettyRow) :=
  match modules with
  | [] => Normal []
  | module :: rest =>
      let* row := prettyRow module in
      let* rows := prettyRows rest in
      Normal (row :: rows)
  end.

(** What a run of the command prints, apart from the log; when the run ends
    in the [catch] of [main], what it printed before is left out. *)
Inductive Printed :=
| Usage
| ValidationReport (results : list ValidationResult)
| ModuleData (data : value)                (** [JSON.stringify(result.data)] *)
| ScanFailure (error : string)             (** [Failed to scan module: ...] *)
| CatalogJson (unified : UnifiedCatalog)   (** [JSON.stringify(unified)] *)
| CatalogLegacy (entries : list value)     (** [JSON.stringify({modules})] *)
| CatalogPretty (generated : Z) (found : nat) (rows : list PrettyRow)
| Unexpected (message : string).           (** the [catch] of [main] *)

Record Exit := {
  printed : Printed;
  code : Z
}.

(** The output of [generateUnifiedModules] in a format; [None] stands for an
    [undefined] format. *)
Definition printCatalog (outputFormat : option string) (unified : UnifiedCatalog)
  : completion Printed :=
  match outputFormat with
  | Some f =>
      if String.eqb f "json" then Normal (CatalogJson unified)
      else if String.eqb f "legacy" then Normal (CatalogLegacy (modules unified))
      else
        let* rows := prettyRows (modules unified) in
        Normal (CatalogPretty (generated_at unified) (length (modules unified)) rows)
  | None =>
      let* rows := prettyRows (modules unified) in
      Normal (CatalogPretty (generated_at unified) (length (modules unified)) rows)
  end.

(** [main] of [scan-modules.js], run with the arguments [args] in a process
    whose clock reads [t]. A run that does not call [process.exit] ends with
    the code 0. *)
Definition main (w : World) (args : list string) (t : Z) : Exit :=
  if includes "--help" args || includes "-h" args
  then {| printed := Usage; code := 0 |}
  else
    let scanner := new_scanner t in
    if includes "--validate" args
    then
      match fst (validateAllModules w scanner) with
      | Normal results =>
          {| printed := ValidationReport results;
             code := if forallb valid results then 0 else 1 |}
      | Throw e => {| printed := Unexpected (message e); code := 1 |}
      end
    else
      match argument_after "--module" args with
      | Some moduleName =>
          match fst (scanModule w moduleName scanner) with
          | Success _ d => {| printed := ModuleData d; code := 0 |}
          | Failure e => {| printed := ScanFailure e; code := 1 |}
          end
      | None =>
          let outputFormat :=
            if includes "--output" args
            then argument_after "--output" args
            else Some "pretty" in
          match (let* unified := fst (generateUnifiedModules w scanner) in
                 printCatalog outputFormat unified) with
          | Normal out => {| printed := out; code := 0 |}
          | Throw e => {| printed := Unexpected (message e); code := 1 |}
          end
      end.

End Commands.

(** ** The commands of the validator *)

Section ValidatorCommands.
Context {numbers : Numbers} {rt : Runtime}.

(** [this.validate], the schema being taken to load. *)
Variable validate : value -> bool.

(** A path of the file system. *)
Inductive file_state :=
| FileMissing                        (** [fs.existsSync] is false *)
| FileUnreadable (message : string)  (** [fs.readFileSync] throws *)
| FileText (content : text).

(** What [https.get] makes of a URL; the status of the response is not
    looked at. *)
Inductive url_reply :=
| UrlInvalid (message : string)      (** [https.get] throws on the URL *)
| UrlFailed (message : string)       (** the request emits [error] *)
| UrlBody (data : text).             (** the response ends with this body *)

(** The verdict on a text: the [try] block that both [validateFromFile] and
    [validateFromUrl] run on what they read, and their [catch]. The name
    under which the module is reported is only printed. *)
Definition validateText (t : text) : bool :=
  match (let* moduleData := JSON_parse t in validateModule validate moduleData) with
  | Normal isValid => fst isValid
  | Throw _ => false
  end.

Definition validateFromFile (files : string -> file_state) (filePath : string) : bool :=
  match files filePath with
  | FileMissing => false
  | FileUnreadable _ => false
  | FileText content => validateText content
  end.

(** [validateFromUrl]: the promise is rejected when [https.get] throws in
    its executor. *)
Definition validateFromUrl (web : string -> url_reply) (url : string)
  : completion bool :=
  match web url with
  | UrlInvalid m => Throw (TypeError m)
  | UrlFailed _ => Normal false
  | UrlBody data => Normal (validateText data)
  end.




End ValidatorCommands.

(** ** The landing page *)

(** [ModulesLoader], the script of the landing page that loads
    [/modules.json]. *)
Module ModulesLoader.
Section Loader.
Context {numbers : Numbers} {rt : Runtime}.

(** The [style.display] of the four panels, the content of the grid, and
    the counter of the loader. *)
Record Page := {
  loadingEl : string;
  errorEl : string;
  coursesGridEl : string;
  emptyEl : string;
  innerHTML : string;
  retryCount : nat
}.

Definition maxRetries : nat := 3.

Definition show (l e c m : string) (page : Page) : Page :=
  {| loadingEl := l; errorEl := e; coursesGridEl := c; emptyEl := m;
     innerHTML := innerHTML page; retryCount := retryCount page |}.

Definition showLoading : Page -> Page := show "flex" "none" "none" "none".
Definition showError : Page -> Page := show "none" "block" "none" "none".
Definition showCourses : Page -> Page := show "none" "none" "grid" "none".
Definition showEmpty : Page -> Page := show "none" "none" "none" "block".

Definition set_retryCount (n : nat) (page : Page) : Page :=
  {| loadingEl := loadingEl page; errorEl := errorEl page;
     coursesGridEl := coursesGridEl page; emptyEl := emptyEl page;
     innerHTML := innerHTML page; retryCount := n |}.

Definition set_innerHTML (html : string) (page : Page) : Page :=
  {| loadingEl := loadingEl page; errorEl := errorEl page;
     coursesGridEl := coursesGridEl page; emptyEl := emptyEl page;
     innerHTML := html; retryCount := retryCount page |}.

(** [handleError]: the page, and whether [loadModules] is scheduled to run
    again in two seconds. *)
Definition handleError (page : Page) : Page * bool :=
  let page1 := set_retryCount (S (retryCount page)) page in
  if (retryCount page1 <? maxRetries)%nat
  then (page1, true)
  else (showError page1, false).

(** The decimal numeral of an index, as a property name. *)
Definition index_key (i : nat) : string := NilZero.string_of_uint (Nat.to_uint i).

Fixpoint indexed {A : Type} (i : nat) (l : list A) : list (string * A) :=
  match l with
  | [] => []
  | x :: rest => (index_key i, x) :: indexed (S i) rest
  end.

(** [Object.entries(v)] for a truthy [v] *)
Definition Object_entries (v : value) : list (string * value) :=
  match v with
  | VObject props => props
  | VArray items => indexed 0 items
  | VString s => indexed 0 (map VString (code_units s))
  | _ => []
  end.

(** [([key, module]) => module.status === 'active'] *)
Definition is_active (entry : string * value) : completion bool :=
  let* status := get (snd entry) "status" in
  Normal (strict_eq status (VString "active")).

(** [entries.filter(p)], where evaluating [p] may throw *)
Fixpoint filter_entries (p : string * value -> completion bool)
    (entries : list (string * value)) : completion (list (string * value)) :=
  match entries with
  | [] => Normal []
  | entry :: rest =>
      let* keep := p entry in
      let* kept := filter_entries p rest in
      Normal (if keep then entry :: kept else kept)
  end.

(** What is left of [renderModules] once there are active modules: sorting
    them by name with [localeCompare] and joining the cards that
    [createModuleCard] makes of them for [data.platform.domain]. *)
Variable cards : list (string * value) -> value -> completion string.

Inductive Rendering :=
| Empty
| Courses (coursesHtml : string).

(** [renderModules], by what it shows. Sorting comes before the test for
    active modules in the code; it does nothing to an empty array. *)
Definition renderModules (data : value) : completion Rendering :=
  let* modules := get data "modules" in
  if negb (truthy modules) || (length (Object_entries modules) =? 0)%nat
  then Normal Empty
  else
    let* activeModules := filter_entries is_active (Object_entries modules) in
    if (length activeModules =? 0)%nat
    then Normal Empty
    else
      let* coursesHtml := cards activeModules data in
      Normal (Courses coursesHtml).

(** What [fetch] and [response.json()] come to. *)
Inductive Response :=
| NetworkError
| HttpError (status : Z)   (** [response.ok] is false *)
| NotJson                  (** [response.json()] rejects *)
| Json (data : value).

(** [loadModules], given what the fetch comes to: the page, and whether it
    is scheduled to run again. *)
Definition loadModules (r : Response) (page : Page) : Page * bool :=
  let page1 := showLoading page in
  match r with
  | Json data =>
      match renderModules data with
      | Normal Empty => (set_retryCount 0 (showEmpty page1), false)
      | Normal (Courses coursesHtml) =>
          (set_retryCount 0 (showCourses (set_innerHTML coursesHtml page1)), false)
      | Throw _ => handleError page1
      end
  | _ => handleError page1
  end.

(** [loadModules] run on the successive responses for as long as it is
    scheduled again: the page, and the responses that were not asked for. *)
Fixpoint autoload (responses : list Response) (page : Page) : Page * list Response :=
  match responses with
  | [] => (page, [])
  | r :: rest =>
      let (page1, again) := loadModules r page in
      if again then autoload rest page1 else (page1, rest)
  end.

(** The panels that are displayed, by the [id] of their element. *)
Definition displayed (page : Page) : list string :=
  map fst
    (List.filter (fun panel => negb (String.eqb (snd panel) "none"))
       [("loading", loadingEl page); ("error", errorEl page);
        ("courses-grid", coursesGridEl page); ("empty", emptyEl page)]).

(** Whether a response ends in [handleError]. *)
Definition fails (r : Response) : bool :=
  match r with
  | Json data =>
      match renderModules data with
      | Normal _ => false
      | Throw _ => true
      end
  | _ => true
  end.

End Loader.
End ModulesLoader.

(** ** The entry of a descriptor, field by field *)

Section Fields.
Context {numbers : Numbers} {rt : Runtime}.

(** [moduleData.deployment?.repository || `mod_${...}`], when the name is a
    string. *)
Definition repository_of (d : value) : value :=
  let explicit := get_opt (own d "deployment") "repository" in
  if truthy explicit then explicit
  else match own d "name" with
       | VString n => VString ("mod_" +:+ replace_dashes n)
       | _ => VUndefined
       end.

(** [moduleData.urls?.production || `https://${...}.infotecha.ru`], when the
    name can be printed. *)
Definition url_of (d : value) : value :=
  let explicit := get_opt (own d "urls") "production" in
  if truthy explicit then explicit
  else match to_string (own d "name") with
       | Normal n => VString ("https://" +:+ n +:+ ".infotecha.ru")
       | Throw _ => VUndefined
       end.

(** [moduleData.metadata?.tags || []] *)
Definition tags_of (d : value) : value :=
  let explicit := get_opt (own d "metadata") "tags" in
  if truthy explicit then explicit else VArray [].

(** The names of the properties of a legacy entry, in order. *)
Definition legacy_keys : list string :=
  ["name"; "title"; "description"; "subdomain"; "repository"; "url";
   "version"; "type"; "difficulty"; "estimated_time"; "tags"; "lifecycle";
   "last_updated"; "hugo_config"].

(** Whether a string holds a dash. *)
Fixpoint has_dash (s : string) : bool :=
  match s with
  | EmptyString => false
  | String c rest => Ascii.eqb c "-"%char || has_dash rest
  end.

End Fields.

(** ** More scenarios *)

Module Cases.

(** The listing holds a repository without a name between two modules. *)
Definition nameless : World :=
  {| listing := ListingOf (VArray [ VObject [("name", VString "mod_linux_base")];
                                    VObject [("id", VString "R_42")];
                                    VObject [("name", VString "mod_python")] ]);
     contents := Scenario.files Scenario.not_found;
     central := Scenario.registry;
     latency := 120 |}.


(** The entries of [Scenario.registry], kept as a sequence. *)
Definition sequence : central_file :=
  registry_of (VArray [ Scenario.central_entry "linux-old" "mod_linux_base";
                        Scenario.central_entry "docker" "mod_docker";
                        Scenario.central_entry "docker-copy" "mod_docker";
                        Scenario.central_entry "python-old" "mod_python" ]).

(** A registry with a [null] before the entry of [mod_docker]. *)
Definition holed : central_file :=
  registry_of (VArray [ Scenario.central_entry "linux-old" "mod_linux_base";
                        VNull;
                        Scenario.central_entry "docker" "mod_docker" ]).

(** A descriptor that follows every convention. *)
Definition conventional : value := Scenario.descriptor "linux-base" "linux-base".

(** A file system with one descriptor, and another one with a second file. *)
Definition disk (filePath : string) : file_state :=
  if String.eqb filePath "module.json" then FileText (Document conventional)
  else FileMissing.


(** A web that serves one descriptor, and one that serves nothing. *)
Definition web (url : string) : url_reply :=
  if String.eqb url "https://raw.githubusercontent.com/info-tech-io/mod_linux_base/main/module.json"
  then UrlBody (Document conventional)
  else UrlFailed "getaddrinfo ENOTFOUND".

Definition no_web (url : string) : url_reply := UrlFailed "getaddrinfo ENOTFOUND".

(** The page before the loader runs. *)
Definition blank : ModulesLoader.Page :=
  {| ModulesLoader.loadingEl := "";
     ModulesLoader.errorEl := "none";
     ModulesLoader.coursesGridEl := "none";
     ModulesLoader.emptyEl := "none";
     ModulesLoader.innerHTML := "";
     ModulesLoader.retryCount := 0 |}.

(** Cards reduced to the keys of the modules. *)
Definition keys (activeModules : list (string * value)) (data : value)
  : completion string :=
  Normal (String.concat "," (map fst activeModules)).

(** The entry of the catalog for the descriptor of [mod_python]. *)
Definition converted : value :=
  match catalogEntry (Success ModuleJson (Scenario.descriptor "python" "py")) with
  | Normal (Some e) => e
  | _ => VUndefined
  end.

(** A catalog with that entry, as the page would receive it. *)
Definition served : value :=
  VObject [("version", VString "2.0");
           ("build_system", VString "hybrid");
           ("modules", VArray [converted])].

End Cases.

Section Resolution.
Context {numbers : Numbers} {rt : Runtime}.

(** ** Module resolution, case by case *)

Lemma scanModule_cached w moduleName p :
  scanModule w moduleName p =
  match cached p moduleName with
  | Some d => (d, p)
  | None => scanFresh w moduleName p
  end.
Proof.
  unfold scanModule, cached.
  destruct (cache p !! cacheKey moduleName) as [c|]; [|reflexivity].
  destruct (now p - timestamp c <? cacheExpiry); reflexivity.
Qed.

Lemma scanFresh_cases w moduleName p :
  scanFresh w moduleName p =
  match contents w moduleName with
  | ContentsOf (Document v) =>
      (Success ModuleJson v,
       cache_set (cacheKey moduleName) (Success ModuleJson v) (fetched w moduleName p))
  | ContentsOf (Malformed m) => (Failure m, fetched w moduleName p)
  | _ => (fallback w moduleName, fetched w moduleName p)
  end.
Proof.
  unfold scanFresh, getFileContent, fallback, fetched.
  destruct (contents w moduleName) as [m| |[|m|v]]; simpl; try reflexivity;
    destruct (scanCentral w moduleName); reflexivity.
Qed.

Lemma scanFresh_cache w moduleName p :
  cache (snd (scanFresh w moduleName p)) = cache p
  \/ exists v t,
       fst (scanFresh w moduleName p) = Success ModuleJson v
       /\ cache (snd (scanFresh w moduleName p))
          = <[cacheKey moduleName := {| data := Success ModuleJson v; timestamp := t |}]> (cache p).
Proof.
  rewrite scanFresh_cases.
  destruct (contents w moduleName) as [m| |[|m|v]]; simpl; auto.
  right. eauto.
Qed.

(** ** The cache invariant *)

Lemma scanFresh_keeps_invariant w moduleName p :
  module_json_cache p -> module_json_cache (snd (scanFresh w moduleName p)).
Proof.
  intros Hp. unfold module_json_cache in *.
  destruct (scanFresh_cache w moduleName p) as [-> | (v & t & _ & ->)]; [exact Hp|].
  apply map_Forall_insert_2; [reflexivity | exact Hp].
Qed.

Lemma scanModule_keeps_invariant w moduleName p :
  module_json_cache p -> module_json_cache (snd (scanModule w moduleName p)).
Proof.
  intros Hp. rewrite scanModule_cached.
  destruct (cached p moduleName); [exact Hp|].
  now apply scanFresh_keeps_invariant.
Qed.

Lemma scanEach_keeps_invariant w repos : forall p,
  module_json_cache p -> module_json_cache (snd (scanEach w repos p)).
Proof.
  induction repos as [|repo rest IH]; intros p Hp; simpl; [exact Hp|].
  pose proof (scanModule_keeps_invariant w repo p Hp) as H1.
  destruct (scanModule w repo p) as [r p1]. simpl in H1.
  specialize (IH p1 H1).
  destruct (scanEach w rest p1) as [results p2]. exact IH.
Qed.

Lemma getRepositories_process w org p :
  snd (getRepositories w org p) = request w (listing_path org) p.
Proof.
  unfold getRepositories.
  destruct (listing w) as [m|body]; [reflexivity|].
  destruct body; try reflexivity.
  destruct (filter_mod_repos items); reflexivity.
Qed.

Lemma scanAllModules_keeps_invariant w p :
  module_json_cache p -> module_json_cache (snd (scanAllModules w p)).
Proof.
  intros Hp. unfold scanAllModules.
  pose proof (getRepositories_process w ORG_NAME p) as Hq.
  destruct (getRepositories w ORG_NAME p) as [repos p1]. simpl in Hq. subst p1.
  now apply scanEach_keeps_invariant.
Qed.

Lemma generateUnifiedModules_process w p :
  snd (generateUnifiedModules w p) = snd (scanAllModules w p).
Proof.
  unfold generateUnifiedModules. destruct (scanAllModules w p); reflexivity.
Qed.

Lemma step_keeps_invariant c p :
  module_json_cache p -> module_json_cache (step c p).
Proof.
  intros Hp. destruct c as [d|w n|w|w]; simpl.
  - exact Hp.
  - now apply scanModule_keeps_invariant.
  - now apply scanAllModules_keeps_invariant.
  - rewrite generateUnifiedModules_process. now apply scanAllModules_keeps_invariant.
Qed.

Lemma run_keeps_invariant calls : forall p,
  module_json_cache p -> module_json_cache (run calls p).
Proof.
  induction calls as [|c rest IH]; intros p Hp; simpl; [exact Hp|].
  apply IH. now apply step_keeps_invariant.
Qed.

Lemma new_scanner_invariant t : module_json_cache (new_scanner t).
Proof. unfold module_json_cache. simpl. apply map_Forall_empty. Qed.

(** C6. Whatever calls have been made on a new scanner, every entry of its
    cache holds a successful result read from a [module.json]; and a call of
    [scanModule] whose result is not of that kind (a central entry or a
    failure) leaves the cache as it was. *)
Theorem cache_holds_module_json_results_only (calls : list call) (t : Z) :
  let p := run calls (new_scanner t) in
  map_Forall (fun _ c => exists d, data c = Success ModuleJson d) (cache p)
  /\ forall w moduleName,
       from_module_json (fst (scanModule w moduleName p)) = false ->
       cache (snd (scanModule w moduleName p)) = cache p.
Proof.
  intros p.
  assert (Hp : module_json_cache p)
    by (apply run_keeps_invariant, new_scanner_invariant).
  split.
  - intros k c Hk. specialize (Hp k c Hk). simpl in Hp.
    destruct (data c) as [[|] d|e]; try discriminate. eauto.
  - intros w n Hr. rewrite scanModule_cached in *.
    destruct (cached p n); [reflexivity|].
    destruct (scanFresh_cache w n p) as [H | (v & ts & Hv & _)]; [exact H|].
    rewrite Hv in Hr. discriminate.
Qed.

End Resolution.

Section WholeScan.
Context {numbers : Numbers} {rt : Runtime}.

(** ** One result per repository *)

Lemma scanFresh_result w moduleName p :
  fst (scanFresh w moduleName p) = resolution w moduleName.
Proof.
  rewrite scanFresh_cases. unfold resolution.
  destruct (contents w moduleName) as [m| |[|m|v]]; reflexivity.
Qed.

Lemma cacheKey_inj a b : cacheKey a = cacheKey b -> a = b.
Proof. unfold cacheKey. simpl. intros H. now inversion H. Qed.

Lemma new_scanner_agrees w t : cache_agrees w (new_scanner t).
Proof. intros n c H. simpl in H. rewrite lookup_empty in H. discriminate. Qed.

Lemma scanFresh_agrees w moduleName p :
  cache_agrees w p -> cache_agrees w (snd (scanFresh w moduleName p)).
Proof.
  intros Hp n c. rewrite scanFresh_cases.
  destruct (contents w moduleName) as [m| |[|m|v]] eqn:Hc; simpl; try apply Hp.
  destruct (decide (cacheKey moduleName = cacheKey n)) as [Heq|Hne].
  - rewrite Heq, lookup_insert_eq. intros [= <-]. simpl.
    apply cacheKey_inj in Heq. subst n. unfold resolution. now rewrite Hc.
  - rewrite lookup_insert_ne by exact Hne. apply Hp.
Qed.

Lemma scanModule_agrees w moduleName p :
  cache_agrees w p ->
  fst (scanModule w moduleName p) = resolution w moduleName
  /\ cache_agrees w (snd (scanModule w moduleName p)).
Proof.
  intros Hp. rewrite scanModule_cached. unfold cached.
  destruct (cache p !! cacheKey moduleName) as [c|] eqn:Hk.
  - destruct (now p - timestamp c <? cacheExpiry).
    + split; [apply (Hp _ _ Hk) | exact Hp].
    + split; [apply scanFresh_result | now apply scanFresh_agrees].
  - split; [apply scanFresh_result | now apply scanFresh_agrees].
Qed.

Lemma scanEach_agrees w repos : forall p,
  cache_agrees w p ->
  fst (scanEach w repos p)
  = map (fun name => {| repository := name; result := resolution w name |}) repos.
Proof.
  induction repos as [|repo rest IH]; intros p Hp; simpl; [reflexivity|].
  destruct (scanModule_agrees w repo p Hp) as [Hr Hq].
  destruct (scanModule w repo p) as [r p1]. simpl in Hr, Hq.
  specialize (IH p1 Hq).
  destruct (scanEach w rest p1) as [results p2]. simpl in *.
  now rewrite Hr, IH.
Qed.

Lemma scanEach_repositories w repos : forall p,
  map repository (fst (scanEach w repos p)) = repos.
Proof.
  induction repos as [|repo rest IH]; intros p; simpl; [reflexivity|].
  destruct (scanModule w repo p) as [r p1].
  specialize (IH p1). destruct (scanEach w rest p1) as [results p2].
  simpl in *. now rewrite IH.
Qed.

Lemma scanAllModules_unfold w p :
  scanAllModules w p
  = scanEach w (fst (getRepositories w ORG_NAME p)) (request w (listing_path ORG_NAME) p).
Proof.
  unfold scanAllModules.
  pose proof (getRepositories_process w ORG_NAME p) as Hq.
  destruct (getRepositories w ORG_NAME p) as [repos p1]. simpl in *. now subst.
Qed.

Lemma scanAllModules_agrees w p :
  cache_agrees w p ->
  fst (scanAllModules w p)
  = map (fun name => {| repository := name; result := resolution w name |})
        (fst (getRepositories w ORG_NAME p)).
Proof.
  intros Hp. rewrite scanAllModules_unfold. apply scanEach_agrees.
  intros n c. simpl. apply Hp.
Qed.

(** ** The fallback *)

Lemma find_cases (f : value -> completion bool) values m :
  find f values = Normal m ->
  (m = VUndefined /\ Forall (fun x => f x = Normal false) values)
  \/ exists before after,
       values = before ++ m :: after
       /\ Forall (fun x => f x = Normal false) before
       /\ f m = Normal true.
Proof.
  induction values as [|x rest IH]; simpl; intros H.
  - left. inversion H. split; [reflexivity | constructor].
  - destruct (f x) as [[|]|e] eqn:Hx; simpl in H; try discriminate.
    + right. inversion H; subst. exists [], rest. repeat split; auto.
    + destruct (IH H) as [[-> Hall] | (before & after & -> & Hb & Hm)].
      * left. split; [reflexivity | now constructor].
      * right. exists (x :: before), after. repeat split; auto.
Qed.

Lemma matches_object moduleName m :
  matches moduleName m = Normal true -> exists props, m = VObject props.
Proof.
  unfold matches, get.
  destruct m as [| |b|n|s|items|props]; simpl; try discriminate; eauto.
Qed.

(** The fallback either throws, or fails with [No configuration found] when
    no entry matches, or returns the first entry that matches. *)
Lemma scanCentral_cases w moduleName r :
  scanCentral w moduleName = Normal r ->
  (r = Failure "No configuration found"
   /\ Forall (fun m => matches moduleName m = Normal false) (central_entries w))
  \/ exists before m after,
       r = Success Central m
       /\ central_entries w = before ++ m :: after
       /\ Forall (fun x => matches moduleName x = Normal false) before
       /\ matches moduleName m = Normal true.
Proof.
  unfold scanCentral, central_entries, get.
  destruct (nullish (loadCentralModules w)); simpl; [discriminate|].
  destruct (truthy (own (loadCentralModules w) "modules")); simpl.
  - destruct (find (matches moduleName) _) as [m|e] eqn:Hf; simpl; [|discriminate].
    destruct (find_cases _ _ _ Hf) as [[-> Hall] | (before & after & Hl & Hb & Hm)].
    + simpl. intros [= <-]. left. auto.
    + destruct (matches_object _ _ Hm) as [props ->]. simpl.
      intros [= <-]. right. exists before, (VObject props), after. auto.
  - intros [= <-]. left. split; [reflexivity | constructor].
Qed.

Lemma fallback_object w moduleName s d :
  fallback w moduleName = Success s d -> s = Central /\ exists props, d = VObject props.
Proof.
  unfold fallback. destruct (scanCentral w moduleName) as [r|e] eqn:Hs; [|discriminate].
  intros ->.
  destruct (scanCentral_cases _ _ _ Hs) as [[H _] | (b & m & a & H & _ & _ & Hm)];
    [discriminate|].
  inversion H; subst. split; [reflexivity|]. eapply matches_object; eauto.
Qed.

End WholeScan.

Section Conversion.
Context {numbers : Numbers} {rt : Runtime}.

(** ** The converter *)

Lemma get_returns v k : nullish v = false -> get v k = Normal (own v k).
Proof. unfold get. now intros ->. Qed.

Lemma get_throws v k : nullish v = true -> exists e, get v k = Throw e.
Proof. unfold get. intros ->. eauto. Qed.

Lemma lookup_assign_same k v props :
  lookup_prop k (assign_prop k v props) = Some v.
Proof.
  induction props as [|[k' v'] rest IH]; simpl.
  - now rewrite String.eqb_refl.
  - destruct (String.eqb k' k) eqn:E; simpl.
    + now rewrite String.eqb_refl.
    + now rewrite E.
Qed.

Lemma lookup_assign_other k k' v props :
  String.eqb k k' = false ->
  lookup_prop k' (assign_prop k v props) = lookup_prop k' props.
Proof.
  intros Hk. induction props as [|[k0 v0] rest IH]; simpl.
  - now rewrite Hk.
  - destruct (String.eqb k0 k) eqn:E; simpl.
    + apply String.eqb_eq in E. subst k0. now rewrite Hk.
    + now rewrite IH.
Qed.

(** Unfolds the converter on a descriptor that is an object, a string, a
    number, a boolean or an array, and splits on each of its fallbacks. *)
Ltac convert_cases d :=
  unfold convertToLegacyFormat, derived_repository, derived_url, or_else;
  rewrite ?(get_returns d) by assumption; cbn [bind];
  repeat match goal with
  | |- context [truthy ?v] => destruct (truthy v) eqn:?; cbn [bind]
  | |- context [call_replace ?v] => destruct (call_replace v) eqn:?; cbn [bind]
  | |- context [to_string ?v] => destruct (to_string v) eqn:?; cbn [bind]
  end.

Lemma convert_nullish d :
  nullish d = true -> exists e, convertToLegacyFormat d = Throw e.
Proof.
  intros H. unfold convertToLegacyFormat.
  destruct (get_throws d "name" H) as [e ->]. simpl. eauto.
Qed.

(** What an entry returned by the converter holds. *)
Lemma convert_entry d e :
  convertToLegacyFormat d = Normal e ->
  exists props,
    e = VObject props
    /\ lookup_prop "name" props = Some (own d "name")
    /\ lookup_prop "subdomain" props = Some (subdomain_of d)
    /\ lookup_prop "_source" props = None.
Proof.
  destruct (nullish d) eqn:Hd.
  - destruct (convert_nullish d Hd) as [x ->]. discriminate.
  - unfold subdomain_of. revert e. convert_cases d; intros x Hx;
      try discriminate Hx; injection Hx as <-;
      (eexists; split; [reflexivity|]; cbn; auto).
Qed.

(** The converter returns exactly when the descriptor is neither [null] nor
    [undefined] and each derived fallback that is needed can be computed. *)
Lemma convert_returns_iff d :
  returns (convertToLegacyFormat d) <->
  nullish d = false
  /\ (truthy (get_opt (own d "deployment") "repository") = true
      \/ returns (call_replace (own d "name")))
  /\ (truthy (get_opt (own d "urls") "production") = true
      \/ returns (to_string (own d "name"))).
Proof.
  unfold returns. destruct (nullish d) eqn:Hd.
  - destruct (convert_nullish d Hd) as [x ->]. split.
    + intros [a H]. discriminate.
    + intros [H _]. discriminate.
  - convert_cases d;
      (split;
       [ intros [? Hx]; try discriminate Hx; repeat split; eauto
       | intros (_ & Hrepo & Hurl);
         destruct Hrepo as [Hr|[? Hr]]; destruct Hurl as [Hu|[? Hu]];
         try discriminate; eauto ]).
Qed.

Lemma convert_named d s :
  own d "name" = VString s -> returns (convertToLegacyFormat d).
Proof.
  intros Hn. apply convert_returns_iff. rewrite Hn. simpl.
  split; [|split; right; eexists; reflexivity].
  destruct d; try reflexivity; discriminate.
Qed.

End Conversion.

Section Entries.
Context {numbers : Numbers} {rt : Runtime}.

(** ** Catalog entries *)

Lemma catalogEntry_some r e :
  catalogEntry r = Normal (Some e) -> success r = true.
Proof. destruct r as [s d|m]; [reflexivity | discriminate]. Qed.

Lemma catalogEntry_none r :
  catalogEntry r = Normal None -> success r = false.
Proof.
  destruct r as [[|] d|m]; simpl; [| |reflexivity].
  - destruct (convertToLegacyFormat d) as [l|x]; simpl; [|discriminate].
    destruct (set_prop l "_source" _); discriminate.
  - destruct (set_prop d "_source" _); discriminate.
Qed.

Lemma catalogEntry_module_json d e :
  catalogEntry (Success ModuleJson d) = Normal (Some e) ->
  own e "_source" = VString "module.json" /\ entry_name e = own d "name".
Proof.
  simpl. destruct (convertToLegacyFormat d) as [l|x] eqn:Hl; simpl; [|discriminate].
  destruct (convert_entry d l Hl) as (props & -> & Hname & _ & _). simpl.
  intros [= <-]. unfold entry_name. simpl.
  rewrite lookup_assign_same, lookup_assign_other, Hname by reflexivity.
  split; reflexivity.
Qed.

Lemma catalogEntry_central d e :
  catalogEntry (Success Central d) = Normal (Some e) -> entry_name e = own d "name".
Proof.
  simpl. destruct d as [| |b|n|s|items|props]; simpl; try discriminate.
  - intros [= <-]. reflexivity.
  - intros [= <-]. unfold entry_name. simpl.
    now rewrite lookup_assign_other by reflexivity.
Qed.

Lemma catalogEntry_central_object props :
  catalogEntry (Success Central (VObject props))
  = Normal (Some (VObject (assign_prop "_source" (VString "central") props))).
Proof. reflexivity. Qed.

Lemma catalogEntry_name r e :
  catalogEntry r = Normal (Some e) -> entry_name e = source_name r.
Proof.
  destruct r as [[|] d|m]; intros H.
  - now apply catalogEntry_module_json in H.
  - now apply catalogEntry_central in H.
  - discriminate.
Qed.

Lemma collectModules_entries results : forall entries,
  collectModules results = Normal entries ->
  Forall2 (fun r e => catalogEntry (result r) = Normal (Some e))
          (successes results) entries.
Proof.
  induction results as [|r rest IH]; simpl; intros entries H.
  - inversion H. constructor.
  - destruct (catalogEntry (result r)) as [[e|]|x] eqn:Hr; simpl in H;
      try discriminate;
      destruct (collectModules rest) as [es|x] eqn:Hrest; simpl in H;
      try discriminate; inversion H; subst.
    + rewrite (catalogEntry_some _ _ Hr). constructor; auto.
    + rewrite (catalogEntry_none _ Hr). auto.
Qed.

Lemma collectModules_returns results :
  Forall (fun r => returns (catalogEntry (result r))) results ->
  returns (collectModules results).
Proof.
  induction 1 as [|r rest [o Hr] _ [es IH]]; simpl.
  - now exists [].
  - rewrite Hr, IH. simpl. eexists. reflexivity.
Qed.

Lemma generateUnifiedModules_catalog w p cat :
  fst (generateUnifiedModules w p) = Normal cat ->
  collectModules (fst (scanAllModules w p)) = Normal (modules cat).
Proof.
  unfold generateUnifiedModules. destruct (scanAllModules w p) as [results p1]. simpl.
  destruct (collectModules results); simpl; [|discriminate].
  now intros [= <-].
Qed.

Lemma generateUnifiedModules_returns w p :
  returns (collectModules (fst (scanAllModules w p))) ->
  returns (fst (generateUnifiedModules w p)).
Proof.
  unfold generateUnifiedModules. destruct (scanAllModules w p) as [results p1]. simpl.
  intros [es ->]. simpl. eexists. reflexivity.
Qed.

Lemma converts_sound r :
  converts r = true ->
  forall d, r = Success ModuleJson d -> returns (convertToLegacyFormat d).
Proof.
  intros H d ->. simpl in H.
  destruct (convertToLegacyFormat d) as [e|x]; [now exists e | discriminate].
Qed.

Lemma resolution_central w moduleName d :
  resolution w moduleName = Success Central d -> exists props, d = VObject props.
Proof.
  unfold resolution.
  destruct (contents w moduleName) as [m| |[|m|v]]; try discriminate;
    intros H; now apply fallback_object in H.
Qed.

Lemma resolution_entry_returns w moduleName :
  (forall d, resolution w moduleName = Success ModuleJson d ->
             returns (convertToLegacyFormat d)) ->
  returns (catalogEntry (resolution w moduleName)).
Proof.
  intros Hconv. destruct (resolution w moduleName) as [[|] d|m] eqn:Hr.
  - destruct (Hconv d eq_refl) as [l Hl]. simpl. rewrite Hl. simpl.
    destruct (convert_entry d l Hl) as (props & -> & _). eexists. reflexivity.
  - destruct (resolution_central _ _ _ Hr) as [props ->]. eexists. reflexivity.
  - eexists. reflexivity.
Qed.

End Entries.

Section CatalogProperties.
Context {numbers : Numbers} {rt : Runtime}.

Lemma find_none (f : value -> completion bool) values :
  Forall (fun x => f x = Normal false) values -> find f values = Normal VUndefined.
Proof.
  induction 1 as [|x rest Hx _ IH]; simpl; [reflexivity|].
  rewrite Hx. simpl. exact IH.
Qed.

Lemma scanCentral_no_match w moduleName :
  nullish (loadCentralModules w) = false ->
  Forall (fun m => matches moduleName m = Normal false) (central_entries w) ->
  scanCentral w moduleName = Normal (Failure "No configuration found").
Proof.
  unfold scanCentral, central_entries, get. intros -> Hall. simpl.
  destruct (truthy (own (loadCentralModules w) "modules")); simpl; [|reflexivity].
  rewrite (find_none _ _ Hall). reflexivity.
Qed.

Lemma fallback_fails_without_match w moduleName :
  Forall (fun m => matches moduleName m = Normal false) (central_entries w) ->
  success (fallback w moduleName) = false
  /\ (nullish (loadCentralModules w) = false ->
      fallback w moduleName = Failure "No configuration found").
Proof.
  intros Hall. unfold fallback. destruct (nullish (loadCentralModules w)) eqn:Hn.
  - split; [|discriminate].
    unfold scanCentral. destruct (get_throws _ "modules" Hn) as [e ->]. reflexivity.
  - rewrite (scanCentral_no_match _ _ Hn Hall). auto.
Qed.

Lemma resolution_without_descriptor w moduleName :
  no_descriptor (contents w moduleName) = true ->
  resolution w moduleName = fallback w moduleName.
Proof.
  unfold resolution. destruct (contents w moduleName) as [m| |[|m|v]];
    try reflexivity; discriminate.
Qed.

(** C1, amended. A scan by a scanner whose cache agrees with the world yields
    one result per listed repository, in listing order, and the result of a
    repository is its own resolution whatever became of the others; a
    repository without a descriptor and without a matching central entry gets
    a failed result ([No configuration found] when the registry is an
    object); and when the conversion of every descriptor that was read
    returns, the catalog is built and its entries are, in order, those of the
    successful results: exactly the failed ones are left out. *)
Theorem scan_isolates_failures w p :
  cache_agrees w p ->
  let listed := fst (getRepositories w ORG_NAME p) in
  let results := fst (scanAllModules w p) in
  results = map (fun name => {| repository := name; result := resolution w name |}) listed
  /\ (forall name,
        no_descriptor (contents w name) = true ->
        Forall (fun m => matches name m = Normal false) (central_entries w) ->
        success (resolution w name) = false
        /\ (nullish (loadCentralModules w) = false ->
            resolution w name = Failure "No configuration found"))
  /\ (Forall (fun name => forall d, resolution w name = Success ModuleJson d ->
                                    returns (convertToLegacyFormat d)) listed ->
      exists cat,
        fst (generateUnifiedModules w p) = Normal cat
        /\ Forall2 (fun r e => catalogEntry (result r) = Normal (Some e))
                   (successes results) (modules cat)).
Proof.
  intros Hp listed results.
  assert (Hres : results = map (fun name => {| repository := name;
                                                result := resolution w name |}) listed)
    by (apply scanAllModules_agrees, Hp).
  split; [exact Hres|]. split.
  - intros name Hno Hall. rewrite (resolution_without_descriptor _ _ Hno).
    now apply fallback_fails_without_match.
  - intros Hconv.
    assert (Hret : returns (fst (generateUnifiedModules w p))).
    { apply generateUnifiedModules_returns, collectModules_returns.
      fold results. rewrite Hres. apply Forall_map.
      eapply Forall_impl; [exact Hconv|]. intros name Hname. simpl.
      now apply resolution_entry_returns. }
    destruct Hret as [cat Hcat]. exists cat. split; [exact Hcat|].
    apply collectModules_entries. now apply generateUnifiedModules_catalog.
Qed.

(** C3, amended. The names of the entries of a catalog are, in order, the
    names the successfully resolved sources carry: nothing is merged or
    dropped, so the names are pairwise distinct exactly when the names of
    those sources are. *)
Theorem catalog_names_are_source_names w p cat :
  fst (generateUnifiedModules w p) = Normal cat ->
  let sources := map (fun r => source_name (result r)) (successes (fst (scanAllModules w p))) in
  map entry_name (modules cat) = sources
  /\ (List.NoDup (map entry_name (modules cat)) <-> List.NoDup sources).
Proof.
  intros Hcat sources.
  assert (H : map entry_name (modules cat) = sources).
  { apply generateUnifiedModules_catalog, collectModules_entries in Hcat.
    unfold sources. induction Hcat as [|r e rs es Hr _ IH]; simpl; [reflexivity|].
    now rewrite IH, (catalogEntry_name _ _ Hr). }
  split; [exact H | now rewrite H].
Qed.

(** Without a string for a name and without a truthy
    [deployment.repository], the converter throws. *)
Lemma convert_throws_without_name d :
  is_string (own d "name") = false ->
  truthy (get_opt (own d "deployment") "repository") = false ->
  exists e, convertToLegacyFormat d = Throw e.
Proof.
  intros Hname Hrepo.
  destruct (convertToLegacyFormat d) as [x|e] eqn:Hd; [|eauto].
  assert (Hret : returns (convertToLegacyFormat d)) by (now exists x).
  apply convert_returns_iff in Hret.
  destruct Hret as (_ & [H|[r H]] & _); [congruence|].
  destruct (own d "name"); simpl in *; discriminate.
Qed.

(** C8. On the empty object, a descriptor in which [name], [deployment],
    [urls], [metadata] and [status] are all absent, the converter throws a
    [TypeError] instead of returning an entry. *)
Theorem convert_throws_on_empty_object :
  convertToLegacyFormat (VObject [])
  = Throw (TypeError "Cannot read properties of undefined (reading 'replace')").
Proof. reflexivity. Qed.

(** C9, amended. The subdomain of the entry is the explicit
    [deployment.subdomain] when that is truthy, and the name otherwise: the
    name is derived exactly when the subdomain is absent or falsy (the empty
    string, [null], [false], zero), and every other explicit value is kept
    unchanged. *)
Theorem subdomain_kept_when_truthy d e :
  convertToLegacyFormat d = Normal e ->
  let explicit := get_opt (own d "deployment") "subdomain" in
  own e "subdomain" = (if truthy explicit then explicit else own d "name").
Proof.
  intros He explicit.
  destruct (convert_entry d e He) as (props & -> & _ & Hsub & _).
  simpl. now rewrite Hsub.
Qed.

End CatalogProperties.

Section ResolutionProperties.
Context {numbers : Numbers} {rt : Runtime}.

(** ** Precedence of the own descriptor *)

Lemma scanModule_module_json w moduleName p v :
  module_json_cache p ->
  contents w moduleName = ContentsOf (Document v) ->
  from_module_json (fst (scanModule w moduleName p)) = true.
Proof.
  intros Hp Hc. unfold scanModule.
  destruct (cache p !! cacheKey moduleName) as [c|] eqn:Hk.
  - destruct (now p - timestamp c <? cacheExpiry).
    + apply (Hp _ _ Hk).
    + rewrite scanFresh_result. unfold resolution. now rewrite Hc.
  - rewrite scanFresh_result. unfold resolution. now rewrite Hc.
Qed.

Lemma scanEach_module_json w moduleName v repos : forall p,
  module_json_cache p ->
  contents w moduleName = ContentsOf (Document v) ->
  Forall (fun r => repository r = moduleName -> from_module_json (result r) = true)
         (fst (scanEach w repos p)).
Proof.
  induction repos as [|repo rest IH]; intros p Hp Hc; simpl; [constructor|].
  pose proof (scanModule_keeps_invariant w repo p Hp) as Hq.
  pose proof (scanModule_module_json w repo p v Hp) as Hr.
  destruct (scanModule w repo p) as [r p1]. simpl in Hq, Hr.
  specialize (IH p1 Hq Hc). destruct (scanEach w rest p1) as [results p2].
  simpl in *. constructor; [|exact IH].
  simpl. intros ->. auto.
Qed.

Lemma scanModule_ignores_central c w moduleName p v :
  contents w moduleName = ContentsOf (Document v) ->
  scanModule (with_central c w) moduleName p = scanModule w moduleName p.
Proof.
  intros Hc. rewrite !scanModule_cached.
  destruct (cached p moduleName); [reflexivity|].
  rewrite !scanFresh_cases. simpl. now rewrite Hc.
Qed.

Lemma from_module_json_success r : from_module_json r = true -> success r = true.
Proof. destruct r as [[|] d|m]; auto; discriminate. Qed.

(** C5. When the request for the [module.json] of a repository yields a text
    that parses, [scanModule] returns a result tagged [module.json] whatever
    the central registry holds (replacing the registry changes nothing), and
    in every catalog that is built the entry of that repository carries
    [_source = 'module.json']; a listed repository of that kind is among the
    successful results, so it has such an entry. *)
Theorem own_descriptor_takes_precedence w p moduleName v :
  module_json_cache p ->
  contents w moduleName = ContentsOf (Document v) ->
  (exists d, fst (scanModule w moduleName p) = Success ModuleJson d)
  /\ (forall c, scanModule (with_central c w) moduleName p = scanModule w moduleName p)
  /\ forall cat,
       fst (generateUnifiedModules w p) = Normal cat ->
       Forall2 (fun r e => repository r = moduleName ->
                           own e "_source" = VString "module.json")
               (successes (fst (scanAllModules w p))) (modules cat)
       /\ (In moduleName (fst (getRepositories w ORG_NAME p)) ->
           exists r, In r (successes (fst (scanAllModules w p)))
                     /\ repository r = moduleName).
Proof.
  intros Hp Hc. split; [|split].
  - pose proof (scanModule_module_json w moduleName p v Hp Hc) as H.
    destruct (fst (scanModule w moduleName p)) as [[|] d|m]; try discriminate.
    eauto.
  - intros c. now apply scanModule_ignores_central with v.
  - intros cat Hcat.
    assert (Hall : Forall (fun r => repository r = moduleName ->
                                    from_module_json (result r) = true)
                          (fst (scanAllModules w p))).
    { rewrite scanAllModules_unfold. apply scanEach_module_json with v; [|exact Hc].
      exact Hp. }
    split.
    + apply generateUnifiedModules_catalog, collectModules_entries in Hcat.
      assert (Hsucc : Forall (fun r => repository r = moduleName ->
                                       from_module_json (result r) = true)
                             (successes (fst (scanAllModules w p)))).
      { unfold successes. rewrite List.Forall_forall in *.
        intros r Hr. apply Hall. apply List.filter_In in Hr. tauto. }
      induction Hcat as [|r e rs es Hr _ IH]; [constructor|].
      inversion Hsucc as [|? ? Hhead Htail]; subst.
      constructor; [|now apply IH].
      intros Hname. specialize (Hhead Hname).
      destruct (result r) as [[|] d|m]; try discriminate.
      now apply catalogEntry_module_json in Hr.
    + intros Hin.
      assert (Hrepos : map repository (fst (scanAllModules w p))
                       = fst (getRepositories w ORG_NAME p))
        by (rewrite scanAllModules_unfold; apply scanEach_repositories).
      rewrite <- Hrepos in Hin. apply List.in_map_iff in Hin.
      destruct Hin as (r & Hname & Hr). exists r. split; [|exact Hname].
      unfold successes. apply List.filter_In. split; [exact Hr|].
      apply from_module_json_success.
      rewrite List.Forall_forall in Hall. now apply Hall.
Qed.

(** ** Parse errors and the fallback *)

Lemma find_throws moduleName values e :
  find (matches moduleName) values = Throw e ->
  exists s, message e = "Cannot read properties of " +:+ s.
Proof.
  induction values as [|x rest IH]; simpl; [discriminate|].
  destruct (matches moduleName x) as [[|]|e'] eqn:Hx; simpl; try discriminate.
  - exact IH.
  - intros [= <-]. unfold matches, get in Hx.
    destruct (nullish x); simpl in Hx; [|discriminate].
    inversion Hx. simpl. eauto.
Qed.

Lemma scanCentral_throws w moduleName e :
  scanCentral w moduleName = Throw e ->
  exists s, message e = "Cannot read properties of " +:+ s.
Proof.
  unfold scanCentral, get.
  destruct (nullish (loadCentralModules w)); simpl.
  - intros [= <-]. simpl. eauto.
  - destruct (truthy (own (loadCentralModules w) "modules")); simpl.
    + destruct (find (matches moduleName) _) as [m|e'] eqn:Hf; simpl.
      * destruct (truthy m); discriminate.
      * intros [= <-]. eapply find_throws; eauto.
    + discriminate.
Qed.

Lemma fallback_not_found w moduleName :
  fallback w moduleName = Failure "No configuration found" ->
  Forall (fun m => matches moduleName m = Normal false) (central_entries w).
Proof.
  unfold fallback. destruct (scanCentral w moduleName) as [r|e] eqn:Hs.
  - intros ->.
    destruct (scanCentral_cases _ _ _ Hs) as [[_ H] | (b & m & a & H & _)];
      [exact H | discriminate].
  - destruct (scanCentral_throws _ _ _ Hs) as [s Hm]. rewrite Hm.
    simpl. discriminate.
Qed.

(** C2, amended. After a cache miss, a module whose descriptor is absent
    (request rejected, no content, or an empty file) gets what the central
    fallback yields, and that is [No configuration found] only when no
    central entry matches. A text that does not parse is not treated like an
    absent descriptor: the result is a failure carrying the message of the
    parser, whatever the central registry holds, and nothing is cached. *)
Theorem parse_error_is_a_failure w moduleName p :
  cached p moduleName = None ->
  (no_descriptor (contents w moduleName) = true ->
   scanModule w moduleName p = (fallback w moduleName, fetched w moduleName p)
   /\ (fallback w moduleName = Failure "No configuration found" ->
       Forall (fun m => matches moduleName m = Normal false) (central_entries w)))
  /\ (forall m,
        contents w moduleName = ContentsOf (Malformed m) ->
        scanModule w moduleName p = (Failure m, fetched w moduleName p)
        /\ cache (fetched w moduleName p) = cache p).
Proof.
  intros Hmiss. rewrite scanModule_cached, Hmiss, scanFresh_cases. split.
  - intros Hno. split; [|apply fallback_not_found].
    destruct (contents w moduleName) as [m| |[|m|v]]; try reflexivity; discriminate.
  - intros m ->. split; reflexivity.
Qed.

(** ** The first matching entry *)

Lemma central_entries_object w :
  central_entries w <> [] -> nullish (loadCentralModules w) = false.
Proof.
  unfold central_entries. destruct (loadCentralModules w); simpl; congruence.
Qed.




(** ** The cache and the network *)

Lemma scanFresh_requests w moduleName p :
  requests (snd (scanFresh w moduleName p))
  = contents_path ORG_NAME moduleName "module.json" "main" :: requests p.
Proof.
  rewrite scanFresh_cases.
  destruct (contents w moduleName) as [m| |[|m|v]]; reflexivity.
Qed.

Lemma scanFresh_without_document w moduleName p :
  (forall v, contents w moduleName <> ContentsOf (Document v)) ->
  snd (scanFresh w moduleName p) = fetched w moduleName p.
Proof.
  intros Hno. rewrite scanFresh_cases.
  destruct (contents w moduleName) as [m| |[|m|v]]; try reflexivity.
  now destruct (Hno v).
Qed.

(** C4, amended. Let a module be resolved after a cache miss, which takes
    one request, and let it be resolved again [d] milliseconds later. When
    the first call read a [module.json] that parses, its result was cached
    as the call ended: if [d] is below the five minutes of [cacheExpiry],
    the second call returns the cached result and requests nothing, so the
    two calls make one request; otherwise the second call makes a request
    of its own. When the first call read no such text, nothing was cached
    and, time not running backwards, the second call makes a request of
    its own however soon it comes. *)
Theorem cached_descriptor_saves_the_fetch w1 w2 moduleName p d :
  cached p moduleName = None ->
  let path := contents_path ORG_NAME moduleName "module.json" "main" in
  let first := scanModule w1 moduleName p in
  let second := scanModule w2 moduleName (elapse d (snd first)) in
  (forall v,
     contents w1 moduleName = ContentsOf (Document v) ->
     fst first = Success ModuleJson v
     /\ requests (snd first) = path :: requests p
     /\ (d < cacheExpiry ->
         fst second = fst first /\ requests (snd second) = path :: requests p)
     /\ (cacheExpiry <= d ->
         requests (snd second) = path :: path :: requests p))
  /\ ((forall v, contents w1 moduleName <> ContentsOf (Document v)) ->
      0 <= latency w1 -> 0 <= d ->
      requests (snd second) = path :: path :: requests p).
Proof.
  intros Hmiss path first second. split.
  - intros v Hc.
    assert (Hfirst : first = (Success ModuleJson v,
                              cache_set (cacheKey moduleName) (Success ModuleJson v)
                                        (fetched w1 moduleName p))).
    { unfold first. now rewrite scanModule_cached, Hmiss, scanFresh_cases, Hc. }
    assert (Hsecond : second =
      if d <? cacheExpiry
      then (Success ModuleJson v, elapse d (snd first))
      else scanFresh w2 moduleName (elapse d (snd first))).
    { unfold second. rewrite scanModule_cached. unfold cached.
      rewrite Hfirst. simpl. rewrite lookup_insert_eq. simpl.
      replace (now p + latency w1 + d - (now p + latency w1)) with d by lia.
      now destruct (d <? cacheExpiry). }
    rewrite Hsecond, Hfirst. simpl.
    split; [reflexivity|]. split; [reflexivity|]. split.
    + intros Hd. apply Z.ltb_lt in Hd. rewrite Hd. split; reflexivity.
    + intros Hd. apply Z.ltb_ge in Hd. rewrite Hd.
      now rewrite scanFresh_requests.
  - intros Hno Hlat Hd.
    assert (Hfirst : snd first = fetched w1 moduleName p).
    { unfold first. rewrite scanModule_cached, Hmiss.
      now apply scanFresh_without_document. }
    assert (Hagain : cached (elapse d (snd first)) moduleName = None).
    { rewrite Hfirst. unfold cached in *. simpl.
      destruct (cache p !! cacheKey moduleName) as [c|]; [|reflexivity].
      destruct (now p - timestamp c <? cacheExpiry) eqn:Hold; [discriminate|].
      apply Z.ltb_ge in Hold.
      assert (Hnew : (now p + latency w1 + d - timestamp c <? cacheExpiry) = false)
        by (apply Z.ltb_ge; lia).
      now rewrite Hnew. }
    unfold second. rewrite scanModule_cached, Hagain, scanFresh_requests, Hfirst.
    reflexivity.
Qed.

End ResolutionProperties.

Section ValidatorProperties.
Context {numbers : Numbers} {rt : Runtime}.
Variable validate : value -> bool.

(** ** Convention checks *)

Lemma own_string_object v k s : own v k = VString s -> nullish v = false.
Proof. destruct v; simpl; try discriminate; reflexivity. Qed.

Lemma own_array_object v k items : own v k = VArray items -> nullish v = false.
Proof.
  destruct v; simpl; try discriminate; try reflexivity.
Qed.

Lemma is_string_inv v : is_string v = true -> exists s, v = VString s.
Proof. destruct v; try discriminate. eauto. Qed.

Lemma is_array_inv v : is_array v = true -> exists items, v = VArray items.
Proof. destruct v; try discriminate. eauto. Qed.

Lemma quiet_nil : quiet (Normal []).
Proof. exists []. split; [reflexivity | constructor]. Qed.

Lemma quiet_one w : is_subdomain_warning w = false -> quiet (Normal [w]).
Proof. intros H. exists [w]. split; [reflexivity | now repeat constructor]. Qed.

Section Checks.
Variable d : value.
Hypothesis Htypes : required_types d = true.

Lemma required_fields :
  exists n s r u h tags,
    own d "name" = VString n
    /\ own (own d "deployment") "subdomain" = VString s
    /\ own (own d "deployment") "repository" = VString r
    /\ own (own d "urls") "production" = VString u
    /\ own (own d "hugo_config") "hugo_version" = VString h
    /\ own (own d "metadata") "tags" = VArray tags.
Proof.
  unfold required_types in Htypes.
  repeat (apply andb_prop in Htypes; destruct Htypes as [Htypes ?]).
  repeat match goal with
  | H : is_string _ = true |- _ => apply is_string_inv in H; destruct H
  | H : is_array _ = true |- _ => apply is_array_inv in H; destruct H
  end.
  eauto 12.
Qed.

Lemma descriptor_object : nullish d = false.
Proof.
  destruct required_fields as (n & ? & ? & ? & ? & ? & Hn & _).
  eapply own_string_object; eauto.
Qed.

Lemma check_repository_quiet : quiet (check_repository d).
Proof.
  destruct required_fields as (n & s & r & u & h & tags & Hn & Hs & Hr & Hu & Hh & Ht).
  unfold check_repository. rewrite !(get_returns d) by apply descriptor_object.
  rewrite Hn. cbn [bind call_replace]. unfold get_opt.
  rewrite (own_string_object _ _ _ Hr), Hr.
  destruct (negb _); cbn; [apply quiet_one; reflexivity | apply quiet_nil].
Qed.

Lemma check_url_quiet : quiet (check_url d).
Proof.
  destruct required_fields as (n & s & r & u & h & tags & Hn & Hs & Hr & Hu & Hh & Ht).
  unfold check_url. rewrite !(get_returns d) by apply descriptor_object.
  rewrite Hn. cbn [bind to_string]. unfold get_opt.
  rewrite (own_string_object _ _ _ Hu), Hu.
  destruct (negb _); cbn; [apply quiet_one; reflexivity | apply quiet_nil].
Qed.

Lemma check_license_quiet : quiet (check_license d).
Proof.
  unfold check_license. rewrite !(get_returns d) by apply descriptor_object.
  cbn [bind].
  destruct (negb _); [apply quiet_one; reflexivity | apply quiet_nil].
Qed.

Lemma check_hugo_version_quiet : quiet (check_hugo_version d).
Proof.
  destruct required_fields as (n & s & r & u & h & tags & Hn & Hs & Hr & Hu & Hh & Ht).
  unfold check_hugo_version. rewrite !(get_returns d) by apply descriptor_object.
  cbn [bind]. unfold get_opt. rewrite (own_string_object _ _ _ Hh), Hh.
  destruct (truthy (VString h)); [|apply quiet_nil].
  rewrite (get_returns _ _ (own_string_object _ _ _ Hh)), Hh. cbn [bind].
  destruct (negb _); cbn; [apply quiet_one; reflexivity | apply quiet_nil].
Qed.

Lemma check_tags_quiet : quiet (check_tags d).
Proof.
  destruct required_fields as (n & s & r & u & h & tags & Hn & Hs & Hr & Hu & Hh & Ht).
  unfold check_tags. rewrite !(get_returns d) by apply descriptor_object.
  cbn [bind]. unfold get_opt. rewrite (own_array_object _ _ _ Ht), Ht.
  cbn [truthy].
  rewrite (get_returns _ _ (own_array_object _ _ _ Ht)), Ht. cbn.
  destruct (num_lt _ _); [apply quiet_one; reflexivity | apply quiet_nil].
Qed.

Lemma check_subdomain_mismatch :
  strict_eq (get_opt (own d "deployment") "subdomain") (own d "name") = false ->
  exists s n,
    own (own d "deployment") "subdomain" = VString s
    /\ own d "name" = VString n
    /\ check_subdomain d = Normal [subdomain_warning s n].
Proof.
  destruct required_fields as (n & s & r & u & h & tags & Hn & Hs & Hr & Hu & Hh & Ht).
  intros Hne. exists s, n. split; [exact Hs|]. split; [exact Hn|].
  unfold check_subdomain. rewrite !(get_returns d) by apply descriptor_object.
  cbn [bind]. rewrite Hne. cbn [negb].
  unfold get_opt. rewrite (own_string_object _ _ _ Hs), Hs, Hn. reflexivity.
Qed.

Lemma check_subdomain_returns : returns (check_subdomain d).
Proof.
  destruct required_fields as (n & s & r & u & h & tags & Hn & Hs & Hr & Hu & Hh & Ht).
  unfold check_subdomain. rewrite !(get_returns d) by apply descriptor_object.
  cbn [bind]. unfold get_opt. rewrite (own_string_object _ _ _ Hs), Hs, Hn.
  destruct (negb _); eexists; reflexivity.
Qed.

End Checks.

(** C7. A descriptor that the schema accepts is never reported invalid,
    whatever the convention checks find; when it has the types the schema
    requires, [validateModule] returns [true]. When moreover its
    [deployment.subdomain] differs from its [name], the subdomain warning is
    printed, first, and no other warning printed is a subdomain warning:
    exactly one is. *)
Theorem convention_warnings_do_not_block d :
  validate d = true ->
  (forall ws, validateModule validate d <> Normal (false, ws))
  /\ (required_types d = true ->
      (exists ws, validateModule validate d = Normal (true, ws))
      /\ (strict_eq (get_opt (own d "deployment") "subdomain") (own d "name") = false ->
          exists s n rest,
            own (own d "deployment") "subdomain" = VString s
            /\ own d "name" = VString n
            /\ validateModule validate d = Normal (true, subdomain_warning s n :: rest)
            /\ Forall (fun w => is_subdomain_warning w = false) rest
            /\ length (List.filter is_subdomain_warning
                                   (subdomain_warning s n :: rest)) = 1%nat)).
Proof.
  intros Hvalid. unfold validateModule. rewrite Hvalid. cbn [negb]. split.
  - intros ws. destruct (performSemanticValidation d); simpl; discriminate.
  - intros Htypes.
    destruct (check_repository_quiet d Htypes) as (w2 & H2 & Q2).
    destruct (check_url_quiet d Htypes) as (w3 & H3 & Q3).
    destruct (check_license_quiet d Htypes) as (w4 & H4 & Q4).
    destruct (check_hugo_version_quiet d Htypes) as (w5 & H5 & Q5).
    destruct (check_tags_quiet d Htypes) as (w6 & H6 & Q6).
    unfold performSemanticValidation. rewrite H2, H3, H4, H5, H6. split.
    + destruct (check_subdomain_returns d Htypes) as [w1 ->].
      eexists. reflexivity.
    + intros Hne.
      destruct (check_subdomain_mismatch d Htypes Hne) as (s & n & Hs & Hn & ->).
      exists s, n, (w2 ++ w3 ++ w4 ++ w5 ++ w6).
      assert (Hrest : Forall (fun w => is_subdomain_warning w = false)
                             (w2 ++ w3 ++ w4 ++ w5 ++ w6))
        by (repeat (apply Forall_app; split); assumption).
      split; [exact Hs|]. split; [exact Hn|].
      split; [reflexivity|]. split; [exact Hrest|].
      assert (Hfirst : is_subdomain_warning (subdomain_warning s n) = true)
        by reflexivity.
      cbn [List.filter]. rewrite Hfirst. cbn [length]. f_equal.
      induction Hrest as [|x xs Hx _ IH]; [reflexivity|].
      cbn [List.filter]. now rewrite Hx.
Qed.

End ValidatorProperties.

(** ** The scenarios, evaluated *)

(** Proves [Forall P l] for a closed list [l] by evaluating [P] on each of
    its elements. *)
Ltac forall_by_evaluation :=
  match goal with
  | |- Forall _ ?l =>
      let l' := eval vm_compute in l in
      change l with l';
      repeat first [ apply List.Forall_nil
                   | apply List.Forall_cons; [vm_compute; reflexivity|] ]
  end.

Ltac by_evaluation := vm_compute; reflexivity.

(** The scan of [Scenario.plain]: [mod_rust] fails and is left out of the
    catalog, which holds one entry for each of the three others. *)
Lemma scan_isolates_failures_witness :
  cache_agrees Scenario.plain (new_scanner 0)
  /\ map repository (fst (scanAllModules Scenario.plain (new_scanner 0)))
     = fst (getRepositories Scenario.plain ORG_NAME (new_scanner 0))
  /\ resolution Scenario.plain "mod_rust" = Failure "No configuration found"
  /\ exists cat,
       fst (generateUnifiedModules Scenario.plain (new_scanner 0)) = Normal cat
       /\ length (modules cat)
          = length (successes (fst (scanAllModules Scenario.plain (new_scanner 0)))).
Proof.
  pose proof (new_scanner_agrees Scenario.plain 0) as Hp.
  destruct (scan_isolates_failures Scenario.plain (new_scanner 0) Hp)
    as (Hres & Hfail & Hcat).
  split; [exact Hp|]. split; [|split].
  - rewrite Hres, List.map_map. apply List.map_id.
  - assert (H1 : no_descriptor (contents Scenario.plain "mod_rust") = true)
      by by_evaluation.
    assert (H2 : Forall (fun m => matches "mod_rust" m = Normal false)
                        (central_entries Scenario.plain))
      by forall_by_evaluation.
    assert (H3 : nullish (loadCentralModules Scenario.plain) = false)
      by by_evaluation.
    exact (proj2 (Hfail "mod_rust" H1 H2) H3).
  - assert (H : Forall (fun name => forall d,
                          resolution Scenario.plain name = Success ModuleJson d ->
                          returns (convertToLegacyFormat d))
                       (fst (getRepositories Scenario.plain ORG_NAME (new_scanner 0)))).
    { set (l := fst (getRepositories _ _ _)). vm_compute in l. subst l.
      repeat (apply List.Forall_cons; [apply converts_sound; by_evaluation|]).
      apply List.Forall_nil. }
    destruct (Hcat H) as (cat & Hc & Hall).
    exists cat. split; [exact Hc|].
    symmetry. exact (Forall2_length _ _ _ Hall).
Defined.

(** In [Scenario.unnamed] the request for the descriptor of [mod_docker]
    fails in transport, and its result is not a failed one: it is the
    central entry. Every repository but [mod_rust] is resolved, [mod_python]
    from its own descriptor; yet no catalog is built: the converter throws
    on that descriptor. *)
Lemma unnamed_descriptor_aborts_the_catalog :
  contents Scenario.unnamed "mod_docker"
  = ContentsRejected "GitHub API request failed: socket hang up"
  /\ map (fun r => (repository r, success (result r)))
         (fst (scanAllModules Scenario.unnamed (new_scanner 0)))
     = [("mod_linux_base", true); ("mod_docker", true);
        ("mod_rust", false); ("mod_python", true)]
  /\ fst (generateUnifiedModules Scenario.unnamed (new_scanner 0))
     = Throw (TypeError "Cannot read properties of undefined (reading 'replace')").
Proof. repeat split; by_evaluation. Qed.

(** [mod_python] has a descriptor that is cut short and a matching central
    entry: resolved without its descriptor it gets the central entry,
    resolved with it it fails with the message of the parser. *)
Lemma cut_short_descriptor_skips_the_fallback :
  fst (scanModule Scenario.missing "mod_python" (new_scanner 0))
  = Success Central (Scenario.central_entry "python-old" "mod_python")
  /\ fst (scanModule Scenario.broken "mod_python" (new_scanner 0))
     = Failure "Unexpected end of JSON input".
Proof. split; by_evaluation. Qed.

Lemma parse_error_is_a_failure_witness :
  cached (new_scanner 0) "mod_python" = None
  /\ scanModule Scenario.broken "mod_python" (new_scanner 0)
     = (Failure "Unexpected end of JSON input",
        fetched Scenario.broken "mod_python" (new_scanner 0))
  /\ cache (fetched Scenario.broken "mod_python" (new_scanner 0))
     = cache (new_scanner 0).
Proof.
  assert (Hmiss : cached (new_scanner 0) "mod_python" = None) by by_evaluation.
  assert (Hc : contents Scenario.broken "mod_python"
               = ContentsOf (Malformed "Unexpected end of JSON input"))
    by by_evaluation.
  split; [exact Hmiss|].
  exact (proj2 (parse_error_is_a_failure Scenario.broken "mod_python"
                  (new_scanner 0) Hmiss) _ Hc).
Defined.

Lemma catalog_names_are_source_names_witness :
  exists cat,
    fst (generateUnifiedModules Scenario.plain (new_scanner 0)) = Normal cat
    /\ map entry_name (modules cat)
       = map (fun r => source_name (result r))
             (successes (fst (scanAllModules Scenario.plain (new_scanner 0)))).
Proof.
  assert (H : exists cat,
             fst (generateUnifiedModules Scenario.plain (new_scanner 0)) = Normal cat)
    by (eexists; by_evaluation).
  destruct H as [cat H]. exists cat. split; [exact H|].
  exact (proj1 (catalog_names_are_source_names
                  Scenario.plain (new_scanner 0) cat H)).
Defined.

(** In [Scenario.homonyms] two repositories carry the name [linux-base], and
    the catalog holds two entries of that name. *)
Lemma homonyms_share_a_name :
  exists cat,
    fst (generateUnifiedModules Scenario.homonyms (new_scanner 0)) = Normal cat
    /\ map entry_name (modules cat)
       = [VString "linux-base"; VString "docker"; VString "linux-base"]
    /\ ~ List.NoDup (map entry_name (modules cat)).
Proof.
  eexists. split; [by_evaluation|].
  assert (Hnames : forall l,
            l = [VString "linux-base"; VString "docker"; VString "linux-base"] ->
            ~ List.NoDup l).
  { intros l -> H. inversion H as [|x l' Hnotin _]; subst.
    apply Hnotin. right. left. reflexivity. }
  split; [by_evaluation | apply Hnames; by_evaluation].
Qed.

(** [mod_docker] is resolved from the central registry: resolved again at
    once, it is fetched again. *)
Lemma central_result_is_fetched_again :
  let path := contents_path ORG_NAME "mod_docker" "module.json" "main" in
  let first := scanModule Scenario.plain "mod_docker" (new_scanner 0) in
  let second := scanModule Scenario.plain "mod_docker" (elapse 0 (snd first)) in
  fst first = Success Central (Scenario.central_entry "docker" "mod_docker")
  /\ fst second = fst first
  /\ requests (snd second) = [path; path].
Proof. vm_compute. repeat split; reflexivity. Qed.

Lemma cached_descriptor_saves_the_fetch_witness :
  let path := contents_path ORG_NAME "mod_python" "module.json" "main" in
  let first := scanModule Scenario.plain "mod_python" (new_scanner 0) in
  let second := scanModule Scenario.plain "mod_python" (elapse 1000 (snd first)) in
  cached (new_scanner 0) "mod_python" = None
  /\ 1000 < cacheExpiry
  /\ fst second = fst first
  /\ requests (snd second) = path :: requests (new_scanner 0).
Proof.
  intros path first second.
  assert (Hmiss : cached (new_scanner 0) "mod_python" = None) by by_evaluation.
  assert (Hc : contents Scenario.plain "mod_python"
               = ContentsOf (Document (Scenario.descriptor "python" "py")))
    by by_evaluation.
  assert (Hd : 1000 < cacheExpiry) by by_evaluation.
  split; [exact Hmiss|]. split; [exact Hd|].
  exact (proj1 (proj2 (proj2 (proj1 (cached_descriptor_saves_the_fetch
           Scenario.plain Scenario.plain "mod_python" (new_scanner 0) 1000 Hmiss)
           (Scenario.descriptor "python" "py") Hc))) Hd).
Defined.

(** [mod_python] has a descriptor of its own and a central entry: the
    central entry is what the fallback would return, and it is not used. *)
Lemma own_descriptor_takes_precedence_witness :
  fallback Scenario.plain "mod_python"
  = Success Central (Scenario.central_entry "python-old" "mod_python")
  /\ exists d,
       fst (scanModule Scenario.plain "mod_python" (new_scanner 0))
       = Success ModuleJson d.
Proof.
  split; [by_evaluation|].
  assert (Hc : contents Scenario.plain "mod_python"
               = ContentsOf (Document (Scenario.descriptor "python" "py")))
    by by_evaluation.
  exact (proj1 (own_descriptor_takes_precedence Scenario.plain (new_scanner 0)
                  "mod_python" _ (new_scanner_invariant 0) Hc)).
Defined.


(** The descriptor of [mod_python] in [Scenario.plain] has the subdomain
    [py]: it is valid, with one subdomain warning. *)
Lemma convention_warnings_do_not_block_witness :
  exists s n rest,
    own (own (Scenario.descriptor "python" "py") "deployment") "subdomain" = VString s
    /\ own (Scenario.descriptor "python" "py") "name" = VString n
    /\ validateModule required_types (Scenario.descriptor "python" "py")
       = Normal (true, subdomain_warning s n :: rest)
    /\ Forall (fun w => is_subdomain_warning w = false) rest
    /\ length (List.filter is_subdomain_warning (subdomain_warning s n :: rest)) = 1%nat.
Proof.
  assert (Hv : required_types (Scenario.descriptor "python" "py") = true)
    by by_evaluation.
  assert (Hne : strict_eq (get_opt (own (Scenario.descriptor "python" "py")
                                        "deployment") "subdomain")
                          (own (Scenario.descriptor "python" "py") "name") = false)
    by by_evaluation.
  exact (proj2 (proj2 (convention_warnings_do_not_block required_types
                         (Scenario.descriptor "python" "py") Hv) Hv) Hne).
Defined.

Lemma subdomain_kept_when_truthy_witness :
  exists e,
    convertToLegacyFormat (Scenario.descriptor "python" "py") = Normal e
    /\ own e "subdomain"
       = (if truthy (get_opt (own (Scenario.descriptor "python" "py") "deployment")
                             "subdomain")
          then get_opt (own (Scenario.descriptor "python" "py") "deployment")
                       "subdomain"
          else own (Scenario.descriptor "python" "py") "name").
Proof.
  assert (H : exists e,
             convertToLegacyFormat (Scenario.descriptor "python" "py") = Normal e)
    by (eexists; by_evaluation).
  destruct H as [e H]. exists e. split; [exact H|].
  exact (subdomain_kept_when_truthy (Scenario.descriptor "python" "py") e H).
Defined.

(** The subdomain of [Scenario.empty_subdomain] is present, and the entry
    does not keep it: it carries the name instead. *)
Lemma empty_subdomain_is_replaced :
  get_opt (own Scenario.empty_subdomain "deployment") "subdomain" = VString ""
  /\ exists e,
       convertToLegacyFormat Scenario.empty_subdomain = Normal e
       /\ own e "subdomain" = VString "linux-base"
       /\ own e "subdomain" <> VString "".
Proof.
  split; [by_evaluation|]. eexists. split; [by_evaluation|].
  split; [by_evaluation|]. vm_compute. discriminate.
Qed.

(** * Further properties *)

Section Listing.
Context {numbers : Numbers} {rt : Runtime}.

(** ** The listing of the organization *)

Lemma is_mod_repo_named repo keep :
  is_mod_repo repo = Normal keep ->
  exists s, own repo "name" = VString s /\ keep = startsWith "mod_" s.
Proof.
  unfold is_mod_repo, get. destruct (nullish repo); simpl; [discriminate|].
  destruct (own repo "name"); try discriminate.
  intros [= <-]. eauto.
Qed.

Lemma is_mod_repo_of_name repo s :
  own repo "name" = VString s -> is_mod_repo repo = Normal (startsWith "mod_" s).
Proof.
  intros Hs. unfold is_mod_repo, get.
  assert (Hn : nullish repo = false) by (destruct repo; try reflexivity; discriminate).
  rewrite Hn. simpl. now rewrite Hs.
Qed.

Lemma is_mod_repo_unnamed repo :
  (forall s, own repo "name" <> VString s) -> exists e, is_mod_repo repo = Throw e.
Proof.
  intros Hs. unfold is_mod_repo, get. destruct (nullish repo); simpl; [eauto|].
  destruct (own repo "name") as [| |b|n|s|items|props]; eauto.
  now destruct (Hs s).
Qed.

Lemma filter_mod_repos_prefix repos : forall names,
  filter_mod_repos repos = Normal names ->
  Forall (fun n => startsWith "mod_" n = true) names.
Proof.
  induction repos as [|repo rest IH]; simpl; intros names H.
  - inversion H. constructor.
  - destruct (is_mod_repo repo) as [keep|e] eqn:Hk; simpl in H; [|discriminate].
    destruct (filter_mod_repos rest) as [kept|e] eqn:Hr; simpl in H; [|discriminate].
    specialize (IH kept eq_refl).
    destruct (is_mod_repo_named _ _ Hk) as (s & Hs & ->).
    rewrite Hs in H. inversion H; subst.
    destruct (startsWith "mod_" s) eqn:Hp; [constructor|]; assumption.
Qed.

Lemma filter_mod_repos_named repos : forall names,
  Forall2 (fun repo n => own repo "name" = VString n) repos names ->
  filter_mod_repos repos
  = Normal (List.filter (fun n => startsWith "mod_" n) names).
Proof.
  induction 1 as [|repo n repos names Hn _ IH]; simpl; [reflexivity|].
  rewrite (is_mod_repo_of_name _ _ Hn), IH, Hn. simpl.
  now destruct (startsWith "mod_" n).
Qed.

Lemma filter_mod_repos_unnamed repos :
  Exists (fun repo => forall s, own repo "name" <> VString s) repos ->
  exists e, filter_mod_repos repos = Throw e.
Proof.
  induction 1 as [repo rest Hrepo|repo rest _ [e IH]]; simpl.
  - destruct (is_mod_repo_unnamed _ Hrepo) as [e ->]. simpl. eauto.
  - destruct (is_mod_repo repo); simpl; [|eauto]. rewrite IH. simpl. eauto.
Qed.

(** X1. Every name that [getRepositories] returns starts with [mod_]; and
    when each listed repository has a string for a name, the names returned
    are those that start with [mod_], in listing order. *)
Theorem getRepositories_keeps_mod_names w org p :
  Forall (fun n => startsWith "mod_" n = true) (fst (getRepositories w org p))
  /\ forall repos names,
       listing w = ListingOf (VArray repos) ->
       Forall2 (fun repo n => own repo "name" = VString n) repos names ->
       fst (getRepositories w org p)
       = List.filter (fun n => startsWith "mod_" n) names.
Proof.
  unfold getRepositories. split.
  - destruct (listing w) as [m|body]; simpl; [constructor|].
    destruct body; simpl; try constructor.
    destruct (filter_mod_repos items) as [names|e] eqn:Hf; simpl; [|constructor].
    now apply filter_mod_repos_prefix with items.
  - intros repos names -> Hnames.
    now rewrite (filter_mod_repos_named _ _ Hnames).
Qed.

(** X2. One listed repository whose name is not a string (or that is
    [null]) empties the whole listing, whatever the other repositories
    are. *)
Theorem getRepositories_all_or_nothing w org p repos :
  listing w = ListingOf (VArray repos) ->
  Exists (fun repo => forall s, own repo "name" <> VString s) repos ->
  fst (getRepositories w org p) = [].
Proof.
  intros Hl Hbad. unfold getRepositories. rewrite Hl.
  now destruct (filter_mod_repos_unnamed _ Hbad) as [e ->].
Qed.

End Listing.

Section Requests.
Context {numbers : Numbers} {rt : Runtime}.

(** ** Requests and cache entries *)

Lemma scanFresh_other_keys w moduleName p k :
  k <> cacheKey moduleName ->
  cache (snd (scanFresh w moduleName p)) !! k = cache p !! k.
Proof.
  intros Hk.
  destruct (scanFresh_cache w moduleName p) as [-> | (v & t & _ & ->)];
    [reflexivity|].
  now rewrite lookup_insert_ne.
Qed.

Lemma scanFresh_keeps_entry w moduleName p k :
  is_Some (cache p !! k) -> is_Some (cache (snd (scanFresh w moduleName p)) !! k).
Proof.
  intros Hk.
  destruct (scanFresh_cache w moduleName p) as [-> | (v & t & _ & ->)];
    [exact Hk|].
  destruct (decide (cacheKey moduleName = k)) as [->|Hne].
  - rewrite lookup_insert_eq. eauto.
  - now rewrite lookup_insert_ne.
Qed.

(** X3. A call of [scanModule] leaves the cache entries of all other
    modules as they were, and removes nothing: an entry, expired or not,
    stays until it is overwritten. *)
Theorem scanModule_touches_one_entry w moduleName p :
  (forall k, k <> cacheKey moduleName ->
             cache (snd (scanModule w moduleName p)) !! k = cache p !! k)
  /\ (forall k, is_Some (cache p !! k) ->
                is_Some (cache (snd (scanModule w moduleName p)) !! k)).
Proof.
  rewrite scanModule_cached. destruct (cached p moduleName); simpl.
  - split; auto.
  - split; intros k Hk.
    + now apply scanFresh_other_keys.
    + now apply scanFresh_keeps_entry.
Qed.

Lemma scanModule_requests w moduleName p :
  requests (snd (scanModule w moduleName p))
  = match cached p moduleName with
    | Some _ => requests p
    | None => contents_path ORG_NAME moduleName "module.json" "main" :: requests p
    end.
Proof.
  rewrite scanModule_cached. destruct (cached p moduleName); [reflexivity|].
  apply scanFresh_requests.
Qed.

Lemma scanEach_requests_bound w repos : forall p,
  (length (requests p) <= length (requests (snd (scanEach w repos p)))
   <= length (requests p) + length repos)%nat.
Proof.
  induction repos as [|repo rest IH]; intros p; simpl; [lia|].
  pose proof (scanModule_requests w repo p) as Hr.
  destruct (scanModule w repo p) as [r p1]. simpl in Hr.
  specialize (IH p1). destruct (scanEach w rest p1) as [results p2]. simpl in *.
  rewrite Hr in IH. destruct (cached p repo); simpl in IH; lia.
Qed.

Lemma cached_without_entry p moduleName :
  cache p !! cacheKey moduleName = None -> cached p moduleName = None.
Proof. unfold cached. now intros ->. Qed.

Lemma scanEach_requests_exact w repos : forall p,
  List.NoDup repos ->
  Forall (fun n => cache p !! cacheKey n = None) repos ->
  length (requests (snd (scanEach w repos p)))
  = (length (requests p) + length repos)%nat.
Proof.
  induction repos as [|repo rest IH]; intros p Hnd Hfree; simpl; [lia|].
  inversion Hnd as [|? ? Hnotin Hnd']; subst.
  inversion Hfree as [|? ? Hrepo Hrest]; subst.
  pose proof (scanModule_requests w repo p) as Hr.
  pose proof (proj1 (scanModule_touches_one_entry w repo p)) as Hother.
  destruct (scanModule w repo p) as [r p1]. simpl in Hr, Hother.
  assert (Hfree1 : Forall (fun n => cache p1 !! cacheKey n = None) rest).
  { rewrite List.Forall_forall in *. intros n Hn.
    rewrite Hother; [now apply Hrest|].
    intros Heq. apply cacheKey_inj in Heq. now subst. }
  specialize (IH p1 Hnd' Hfree1).
  destruct (scanEach w rest p1) as [results p2]. simpl in *.
  rewrite IH, Hr, (cached_without_entry _ _ Hrepo). simpl. lia.
Qed.

(** X4. An organization-wide scan makes the listing request and at most
    one request per listed repository; when the listed names are distinct
    and none of them has a cache entry, it makes exactly one per
    repository. *)
Theorem scanAllModules_request_volume w p :
  let listed := fst (getRepositories w ORG_NAME p) in
  let after := requests (snd (scanAllModules w p)) in
  (length (requests p) + 1 <= length after
   <= length (requests p) + 1 + length listed)%nat
  /\ (List.NoDup listed ->
      Forall (fun n => cache p !! cacheKey n = None) listed ->
      length after = (length (requests p) + 1 + length listed)%nat).
Proof.
  intros listed after. unfold after. rewrite scanAllModules_unfold. fold listed.
  split.
  - pose proof (scanEach_requests_bound w listed
                  (request w (listing_path ORG_NAME) p)) as H.
    simpl in H. lia.
  - intros Hnd Hfree.
    rewrite scanEach_requests_exact; [simpl; lia | exact Hnd | exact Hfree].
Qed.

End Requests.

Section Registry.
Context {numbers : Numbers} {rt : Runtime}.

(** ** The central registry *)

Lemma scanModule_falls_back w moduleName p :
  cached p moduleName = None ->
  no_descriptor (contents w moduleName) = true ->
  fst (scanModule w moduleName p) = fallback w moduleName.
Proof.
  intros Hmiss Hno. rewrite scanModule_cached, Hmiss, scanFresh_result.
  now apply resolution_without_descriptor.
Qed.

(** X5. The fallback looks at nothing of the registry but the entries
    that [Object.values] enumerates, in their order: two registries with
    the same entries, be they kept as a mapping under any keys or as a
    sequence, resolve every module alike. *)
Theorem fallback_reads_entries_only w1 w2 moduleName :
  nullish (loadCentralModules w1) = false ->
  nullish (loadCentralModules w2) = false ->
  central_entries w1 = central_entries w2 ->
  scanCentral w1 moduleName = scanCentral w2 moduleName.
Proof.
  unfold scanCentral, central_entries, get. intros -> -> He. simpl.
  destruct (truthy (own (loadCentralModules w1) "modules"));
    destruct (truthy (own (loadCentralModules w2) "modules")); simpl.
  - now rewrite He.
  - now rewrite He.
  - now rewrite <- He.
  - reflexivity.
Qed.

(** X6. When the central file is missing, unreadable, empty or malformed,
    a module without a descriptor of its own fails with
    [No configuration found]: the registry counts as empty, and the scan
    goes on. *)
Theorem unusable_registry_is_empty w moduleName p :
  unusable (central w) = true ->
  cached p moduleName = None ->
  no_descriptor (contents w moduleName) = true ->
  fst (scanModule w moduleName p) = Failure "No configuration found".
Proof.
  intros Hc Hmiss Hno. rewrite (scanModule_falls_back _ _ _ Hmiss Hno).
  unfold fallback, scanCentral, loadCentralModules.
  destruct (central w) as [|m|[|m|v]]; try reflexivity. discriminate.
Qed.

Lemma find_stops_at_nullish moduleName before m after :
  Forall (fun x => matches moduleName x = Normal false) before ->
  nullish m = true ->
  find (matches moduleName) (before ++ m :: after)
  = Throw (TypeError ("Cannot read properties of " +:+ type_name m
                      +:+ " (reading 'content_repo')")).
Proof.
  intros Hb Hm. induction Hb as [|x rest Hx _ IH]; simpl.
  - unfold matches, get. now rewrite Hm.
  - rewrite Hx. simpl. exact IH.
Qed.

(** X7. A [null] entry of the registry that the search reaches before any
    match makes the fallback fail with the message of the [TypeError],
    whatever comes after it: an entry that would match is never looked
    at. *)
Theorem null_entry_stops_the_search w moduleName p before m after :
  cached p moduleName = None ->
  no_descriptor (contents w moduleName) = true ->
  central_entries w = before ++ m :: after ->
  Forall (fun x => matches moduleName x = Normal false) before ->
  nullish m = true ->
  fst (scanModule w moduleName p)
  = Failure ("Cannot read properties of " +:+ type_name m
             +:+ " (reading 'content_repo')").
Proof.
  intros Hmiss Hno He Hb Hm. rewrite (scanModule_falls_back _ _ _ Hmiss Hno).
  assert (Hobj : nullish (loadCentralModules w) = false).
  { apply central_entries_object. rewrite He. now destruct before. }
  unfold fallback, scanCentral, get. rewrite Hobj. simpl.
  unfold central_entries in He.
  destruct (truthy (own (loadCentralModules w) "modules")).
  - now rewrite He, (find_stops_at_nullish _ _ _ _ Hb Hm).
  - now destruct before.
Qed.

End Registry.

Section Converter.
Context {numbers : Numbers} {rt : Runtime}.

(** ** The fields of a legacy entry *)

Lemma call_replace_string v r :
  call_replace v = Normal r -> exists n, v = VString n /\ r = replace_dashes n.
Proof. destruct v; simpl; try discriminate. intros [= <-]. eauto. Qed.

(** The entry that the converter returns, property by property. *)
Lemma convert_fields d e :
  convertToLegacyFormat d = Normal e ->
  e = VObject [
        ("name", own d "name");
        ("title", own d "title");
        ("description", own d "description");
        ("subdomain", subdomain_of d);
        ("repository", repository_of d);
        ("url", url_of d);
        ("version", own d "version");
        ("type", own d "type");
        ("difficulty", get_opt (own d "metadata") "difficulty");
        ("estimated_time", get_opt (own d "metadata") "estimated_time");
        ("tags", tags_of d);
        ("lifecycle", get_opt (own d "status") "lifecycle");
        ("last_updated", get_opt (own d "status") "last_updated");
        ("hugo_config", own d "hugo_config") ].
Proof.
  destruct (nullish d) eqn:Hd.
  - destruct (convert_nullish d Hd) as [x ->]. discriminate.
  - unfold convertToLegacyFormat, derived_repository, derived_url, or_else,
      subdomain_of, repository_of, url_of, tags_of.
    rewrite !(get_returns d) by assumption. cbn [bind].
    destruct (to_string (own d "name")) as [u|x] eqn:Ht;
      destruct (call_replace (own d "name")) as [r|x'] eqn:Hr;
      try (apply call_replace_string in Hr; destruct Hr as (n & Hn & ->);
           rewrite Hn);
      destruct (truthy (get_opt (own d "deployment") "subdomain"));
      destruct (truthy (get_opt (own d "deployment") "repository"));
      destruct (truthy (get_opt (own d "urls") "production"));
      destruct (truthy (get_opt (own d "metadata") "tags"));
      cbn [bind]; try discriminate; intros [= <-]; reflexivity.
Qed.

(** X8. Whatever the descriptor holds, an entry that the converter returns
    has the same fourteen properties in the same order, and [_source] is
    not one of them; its [tags] are never falsy, being an empty array when
    the descriptor has none. *)
Theorem legacy_entry_shape d e :
  convertToLegacyFormat d = Normal e ->
  (exists props, e = VObject props /\ map fst props = legacy_keys)
  /\ own e "_source" = VUndefined
  /\ truthy (own e "tags") = true.
Proof.
  intros He. rewrite (convert_fields d e He). split; [|split].
  - eexists. split; reflexivity.
  - reflexivity.
  - cbn. unfold tags_of.
    destruct (truthy (get_opt (own d "metadata") "tags")) eqn:Ht; [exact Ht|reflexivity].
Qed.

Lemma call_replace_returns v : returns (call_replace v) <-> is_string v = true.
Proof.
  unfold returns. destruct v; simpl; split; intros H;
    try discriminate; try (destruct H; discriminate); eauto.
Qed.

(** X9. The converter returns exactly when the descriptor is neither
    [null] nor [undefined] and either fallback that is needed can be
    derived: the repository asks for a name that is a string, the URL for a
    name that can be printed. *)
Theorem convert_returns_exactly_when d :
  returns (convertToLegacyFormat d) <->
  nullish d = false
  /\ (truthy (get_opt (own d "deployment") "repository") = true
      \/ is_string (own d "name") = true)
  /\ (truthy (get_opt (own d "urls") "production") = true
      \/ returns (to_string (own d "name"))).
Proof.
  rewrite convert_returns_iff, call_replace_returns. reflexivity.
Qed.

Lemma replace_dashes_length s : String.length (replace_dashes s) = String.length s.
Proof. induction s as [|c s IH]; simpl; [reflexivity | now rewrite IH]. Qed.

Lemma replace_dashes_no_dash s : has_dash (replace_dashes s) = false.
Proof.
  induction s as [|c s IH]; simpl; [reflexivity|]. rewrite IH.
  destruct (Ascii.eqb c "-") eqn:Hc; [reflexivity|]. now rewrite Hc.
Qed.

Lemma replace_dashes_id s : has_dash s = false -> replace_dashes s = s.
Proof.
  induction s as [|c s IH]; simpl; [reflexivity|].
  intros H. apply orb_false_iff in H. destruct H as [Hc Hs].
  now rewrite Hc, IH.
Qed.

(** X10. Replacing the dashes of a name keeps its length and leaves no
    dash, changes nothing in a name without dashes, and so does nothing
    when done twice; the repository name derived from it starts with
    [mod_], which is what the listing of the organization keeps. *)
Theorem derived_repository_name s :
  String.length (replace_dashes s) = String.length s
  /\ has_dash (replace_dashes s) = false
  /\ (has_dash s = false -> replace_dashes s = s)
  /\ replace_dashes (replace_dashes s) = replace_dashes s
  /\ startsWith "mod_" ("mod_" +:+ replace_dashes s) = true.
Proof.
  split; [apply replace_dashes_length|].
  split; [apply replace_dashes_no_dash|].
  split; [apply replace_dashes_id|].
  split; [apply replace_dashes_id, replace_dashes_no_dash | destruct s; reflexivity].
Qed.

(** X11. For a descriptor whose name is a string, the converter returns,
    and each derived field of the entry is the explicit one when that is
    truthy and the fallback computed from the name otherwise; when the
    name is not empty, none of the subdomain, the repository and the URL
    is falsy. *)
Theorem named_descriptor_converts d n :
  own d "name" = VString n ->
  exists e,
    convertToLegacyFormat d = Normal e
    /\ own e "repository"
       = (let explicit := get_opt (own d "deployment") "repository" in
          if truthy explicit then explicit
          else VString ("mod_" +:+ replace_dashes n))
    /\ own e "url"
       = (let explicit := get_opt (own d "urls") "production" in
          if truthy explicit then explicit
          else VString ("https://" +:+ n +:+ ".infotecha.ru"))
    /\ (n <> "" ->
        truthy (own e "subdomain") = true
        /\ truthy (own e "repository") = true
        /\ truthy (own e "url") = true).
Proof.
  intros Hn. destruct (convert_named d n Hn) as [e He]. exists e.
  split; [exact He|]. rewrite (convert_fields d e He). cbn.
  unfold subdomain_of, repository_of, url_of. rewrite Hn. cbn.
  split; [reflexivity|]. split; [reflexivity|].
  intros Hne.
  assert (Hname : negb (String.eqb n "") = true)
    by (apply negb_true_iff, String.eqb_neq, Hne).
  repeat split.
  - destruct (truthy (get_opt (own d "deployment") "subdomain")) eqn:H; [exact H|exact Hname].
  - destruct (truthy (get_opt (own d "deployment") "repository")) eqn:H; [exact H|reflexivity].
  - destruct (truthy (get_opt (own d "urls") "production")) eqn:H; [exact H|reflexivity].
Qed.

End Converter.

Section Provenance.
Context {numbers : Numbers} {rt : Runtime}.

(** ** Entries and their sources *)

Lemma cached_entry p moduleName r :
  cached p moduleName = Some r ->
  exists c, cache p !! cacheKey moduleName = Some c /\ data c = r.
Proof.
  unfold cached. destruct (cache p !! cacheKey moduleName) as [c|]; [|discriminate].
  destruct (now p - timestamp c <? cacheExpiry); [|discriminate].
  intros [= <-]. eauto.
Qed.

Lemma scanModule_central_object w moduleName p d :
  module_json_cache p ->
  fst (scanModule w moduleName p) = Success Central d ->
  exists props, d = VObject props.
Proof.
  intros Hp. rewrite scanModule_cached.
  destruct (cached p moduleName) as [r|] eqn:Hc; simpl.
  - destruct (cached_entry _ _ _ Hc) as (c & Hk & <-).
    intros Hr. specialize (Hp _ _ Hk). simpl in Hp. rewrite Hr in Hp. discriminate.
  - rewrite scanFresh_result. apply resolution_central.
Qed.

Lemma scanEach_central_objects w repos : forall p,
  module_json_cache p ->
  Forall (fun r => forall d, result r = Success Central d ->
                             exists props, d = VObject props)
         (fst (scanEach w repos p)).
Proof.
  induction repos as [|repo rest IH]; intros p Hp; simpl; [constructor|].
  pose proof (scanModule_keeps_invariant w repo p Hp) as Hq.
  pose proof (fun d => scanModule_central_object w repo p d Hp) as Hr.
  destruct (scanModule w repo p) as [r p1]. simpl in Hq, Hr.
  specialize (IH p1 Hq). destruct (scanEach w rest p1) as [results p2].
  simpl in *. constructor; auto.
Qed.

Lemma successes_forall (P : RepositoryResult -> Prop) results :
  Forall P results -> Forall P (successes results).
Proof.
  unfold successes. rewrite !List.Forall_forall. intros H r Hr.
  apply H. apply List.filter_In in Hr. tauto.
Qed.

(** What the entry of a successful result owes to it. *)
Lemma entries_of_successes (P : RepositoryResult -> Prop)
    (Q : RepositoryResult -> value -> Prop) rs es :
  (forall r e, P r -> catalogEntry (result r) = Normal (Some e) -> Q r e) ->
  Forall P rs ->
  Forall2 (fun r e => catalogEntry (result r) = Normal (Some e)) rs es ->
  Forall2 Q rs es.
Proof.
  intros Hstep Hall H. induction H as [|r e rs es Hr _ IH]; [constructor|].
  inversion Hall; subst. constructor; auto.
Qed.

(** X12. In every catalog built by a scanner whose cache holds results read
    from a [module.json] only, each entry carries in [_source] the tag of
    the source of its result, [module.json] or [central]: no entry is left
    without its provenance. *)
Theorem every_entry_is_tagged w p cat :
  module_json_cache p ->
  fst (generateUnifiedModules w p) = Normal cat ->
  Forall2 (fun r e => exists s d,
             result r = Success s d /\ own e "_source" = VString (source_tag s))
          (successes (fst (scanAllModules w p))) (modules cat).
Proof.
  intros Hp Hcat.
  apply generateUnifiedModules_catalog, collectModules_entries in Hcat.
  eapply (entries_of_successes
            (fun r => forall d, result r = Success Central d ->
                                exists props, d = VObject props));
    [| |exact Hcat].
  - intros r e Hobj He. destruct (result r) as [[|] d|m] eqn:Hr.
    + exists ModuleJson, d. split; [reflexivity|].
      now apply catalogEntry_module_json in He.
    + exists Central, d. split; [reflexivity|].
      destruct (Hobj d eq_refl) as [props ->]. simpl in He. inversion He; subst.
      simpl. now rewrite lookup_assign_same.
    + discriminate.
  - apply successes_forall. rewrite scanAllModules_unfold.
    now apply scanEach_central_objects.
Qed.

(** X13. A central entry goes into the catalog as it is in the registry,
    apart from [_source], which is set to [central] over whatever the
    entry held there. *)
Theorem central_entries_pass_through w p cat :
  module_json_cache p ->
  fst (generateUnifiedModules w p) = Normal cat ->
  Forall2 (fun r e => forall d,
             result r = Success Central d ->
             own e "_source" = VString "central"
             /\ forall k, k <> "_source" -> own e k = own d k)
          (successes (fst (scanAllModules w p))) (modules cat).
Proof.
  intros Hp Hcat.
  apply generateUnifiedModules_catalog, collectModules_entries in Hcat.
  eapply (entries_of_successes
            (fun r => forall d, result r = Success Central d ->
                                exists props, d = VObject props));
    [| |exact Hcat].
  - intros r e Hobj He d Hr. rewrite Hr in He.
    destruct (Hobj d Hr) as [props ->]. clear Hobj. simpl in He. inversion He; subst.
    simpl. split; [now rewrite lookup_assign_same|].
    intros k Hk. rewrite lookup_assign_other; [reflexivity|].
    apply String.eqb_neq. congruence.
  - apply successes_forall. rewrite scanAllModules_unfold.
    now apply scanEach_central_objects.
Qed.

(** X14. A catalog has one entry per successful result, so at most one per
    listed repository. *)
Theorem catalog_size w p cat :
  fst (generateUnifiedModules w p) = Normal cat ->
  length (modules cat) = length (successes (fst (scanAllModules w p)))
  /\ (length (modules cat) <= length (fst (getRepositories w ORG_NAME p)))%nat.
Proof.
  intros Hcat.
  apply generateUnifiedModules_catalog, collectModules_entries in Hcat.
  apply Forall2_length in Hcat.
  assert (Hrepos : map repository (fst (scanAllModules w p))
                   = fst (getRepositories w ORG_NAME p))
    by (rewrite scanAllModules_unfold; apply scanEach_repositories).
  split; [now symmetry|].
  rewrite <- Hcat, <- Hrepos, List.length_map. unfold successes.
  apply List.filter_length_le.
Qed.

End Provenance.

Section Conventions.
Context {numbers : Numbers} {rt : Runtime}.

(** ** The convention checks, field by field *)

Section TypedDescriptor.
Variables (d : value) (n s r u h : string) (tags : list value).
Hypothesis Hn : own d "name" = VString n.
Hypothesis Hs : own (own d "deployment") "subdomain" = VString s.
Hypothesis Hr : own (own d "deployment") "repository" = VString r.
Hypothesis Hu : own (own d "urls") "production" = VString u.
Hypothesis Hh : own (own d "hugo_config") "hugo_version" = VString h.
Hypothesis Ht : own (own d "metadata") "tags" = VArray tags.

Lemma typed_descriptor_object : nullish d = false.
Proof. eapply own_string_object; eauto. Qed.

Lemma check_subdomain_typed :
  check_subdomain d
  = Normal (if String.eqb s n then [] else [subdomain_warning s n]).
Proof.
  unfold check_subdomain. rewrite !(get_returns d) by apply typed_descriptor_object.
  cbn [bind]. unfold get_opt. rewrite (own_string_object _ _ _ Hs), Hs, Hn. cbn.
  now destruct (String.eqb s n).
Qed.

Lemma check_repository_typed :
  check_repository d
  = Normal (if String.eqb r ("mod_" +:+ replace_dashes n) then []
            else [repository_warning r ("mod_" +:+ replace_dashes n)]).
Proof.
  unfold check_repository. rewrite !(get_returns d) by apply typed_descriptor_object.
  rewrite Hn. cbn [bind call_replace]. unfold get_opt.
  rewrite (own_string_object _ _ _ Hr), Hr. cbn [strict_eq].
  now destruct (String.eqb r _).
Qed.

Lemma check_url_typed :
  check_url d
  = Normal (if String.eqb u ("https://" +:+ n +:+ ".infotecha.ru") then []
            else [url_warning u ("https://" +:+ n +:+ ".infotecha.ru")]).
Proof.
  unfold check_url. rewrite !(get_returns d) by apply typed_descriptor_object.
  rewrite Hn. cbn [bind to_string]. unfold get_opt.
  rewrite (own_string_object _ _ _ Hu), Hu. cbn [strict_eq].
  now destruct (String.eqb u _).
Qed.

Lemma check_license_typed :
  check_license d
  = Normal (if truthy (own (own d "metadata") "license") then []
            else [license_warning]).
Proof.
  unfold check_license. rewrite !(get_returns d) by apply typed_descriptor_object.
  cbn [bind]. unfold get_opt. rewrite (own_array_object _ _ _ Ht).
  now destruct (truthy _).
Qed.

Lemma check_hugo_version_typed :
  check_hugo_version d
  = Normal (if String.eqb h "" || String.eqb h "0.148.0" then []
            else [hugo_warning h]).
Proof.
  unfold check_hugo_version.
  rewrite !(get_returns d) by apply typed_descriptor_object.
  cbn [bind]. unfold get_opt. rewrite (own_string_object _ _ _ Hh), Hh.
  cbn [truthy]. destruct (String.eqb h "") eqn:He; [reflexivity|]. cbn [negb orb].
  rewrite (get_returns _ _ (own_string_object _ _ _ Hh)), Hh. cbn.
  now destruct (String.eqb h "0.148.0").
Qed.

Lemma check_tags_typed :
  check_tags d
  = Normal (if num_lt (num_of_nat (length tags)) (num_of_nat 3)
            then [tags_warning] else []).
Proof.
  unfold check_tags. rewrite !(get_returns d) by apply typed_descriptor_object.
  cbn [bind]. unfold get_opt. rewrite (own_array_object _ _ _ Ht), Ht.
  cbn [truthy].
  rewrite (get_returns _ _ (own_array_object _ _ _ Ht)), Ht. cbn.
  now destruct (num_lt _ _).
Qed.

(** X15. For a descriptor with the types the schema requires, in a runtime
    whose numbers order the lengths as the naturals do, the convention
    checks give no warning exactly when the six conventions hold: the
    subdomain is the name, the repository and the production URL are the
    ones derived from it, a license is given, the version of Hugo is the
    current one (or empty), and there are three tags at least. *)
Theorem no_warning_exactly_when_conventional :
  (forall a b, num_lt (num_of_nat a) (num_of_nat b) = (a <? b)%nat) ->
  performSemanticValidation d = Normal [] <->
  s = n
  /\ r = "mod_" +:+ replace_dashes n
  /\ u = "https://" +:+ n +:+ ".infotecha.ru"
  /\ truthy (own (own d "metadata") "license") = true
  /\ (h = "" \/ h = "0.148.0")
  /\ (3 <= length tags)%nat.
Proof.
  intros Hlt. unfold performSemanticValidation.
  rewrite check_subdomain_typed, check_repository_typed, check_url_typed,
    check_license_typed, check_hugo_version_typed, check_tags_typed, Hlt.
  cbn [bind].
  destruct (String.eqb s n) eqn:E1;
    destruct (String.eqb r ("mod_" +:+ replace_dashes n)) eqn:E2;
    destruct (String.eqb u ("https://" +:+ n +:+ ".infotecha.ru")) eqn:E3;
    destruct (truthy (own (own d "metadata") "license")) eqn:E4;
    destruct (String.eqb h "") eqn:E5;
    destruct (String.eqb h "0.148.0") eqn:E6;
    destruct (length tags <? 3)%nat eqn:E7;
    cbn [orb app];
    rewrite ?String.eqb_eq, ?String.eqb_neq in *;
    rewrite ?Nat.ltb_lt, ?Nat.ltb_ge in *;
    (split;
     [ intros H; try discriminate H; repeat split; auto; lia
     | intros (H1 & H2 & H3 & H4 & H5 & H6);
       try reflexivity; try congruence; try lia;
       try (destruct H5; congruence) ]).
Qed.

(** X16. A descriptor that follows the three naming conventions converts
    to the entry that the fallbacks alone would give: when the checks of
    the subdomain, the repository and the production URL give no warning,
    these fields of the entry are the name and what is derived from it. *)
Theorem conventional_descriptor_converts_to_fallbacks :
  check_subdomain d = Normal [] ->
  check_repository d = Normal [] ->
  check_url d = Normal [] ->
  exists e,
    convertToLegacyFormat d = Normal e
    /\ own e "subdomain" = VString n
    /\ own e "repository" = VString ("mod_" +:+ replace_dashes n)
    /\ own e "url" = VString ("https://" +:+ n +:+ ".infotecha.ru").
Proof.
  rewrite check_subdomain_typed, check_repository_typed, check_url_typed.
  destruct (String.eqb s n) eqn:E1; [|discriminate].
  destruct (String.eqb r _) eqn:E2; [|discriminate].
  destruct (String.eqb u _) eqn:E3; [|discriminate].
  apply String.eqb_eq in E1, E2, E3. intros _ _ _.
  destruct (convert_named d n Hn) as [e He]. exists e. split; [exact He|].
  rewrite (convert_fields d e He). cbn.
  unfold subdomain_of, repository_of, url_of, get_opt.
  rewrite (own_string_object _ _ _ Hs), (own_string_object _ _ _ Hu), Hs, Hr, Hu, Hn.
  subst s r u. cbn.
  split; [now destruct (negb (String.eqb n ""))|].
  split; [destruct (replace_dashes n) | destruct n]; reflexivity.
Qed.

End TypedDescriptor.
End Conventions.

Section CommandLine.
Context {numbers : Numbers} {rt : Runtime}.
Variable validate : value -> bool.

(** ** The commands of the scanner *)

Lemma validateModule_verdict d v :
  validateModule validate d = Normal v -> fst v = validate d.
Proof.
  unfold validateModule. destruct (validate d); simpl.
  - destruct (performSemanticValidation d); simpl; [|discriminate].
    now intros [= <-].
  - now intros [= <-].
Qed.


(** X17. The report of [validateAllModules] lists the repositories whose
    descriptor was read from a [module.json], in the order of the scan and
    no others, each with the verdict of the schema on that descriptor: the
    outcome of the convention checks does not change it. *)
Theorem validateAllModules_reports_descriptors w p report :
  fst (validateAllModules validate w p) = Normal report ->
  Forall2 (fun r v => validated v = repository r
                      /\ exists d, result r = Success ModuleJson d
                                   /\ valid v = validate d)
          (List.filter (fun r => from_module_json (result r))
                       (fst (scanAllModules w p)))
          report.
Proof.
  unfold validateAllModules. destruct (scanAllModules w p) as [results p1]. simpl.
  revert report. induction results as [|r rest IH]; simpl; intros report H.
  - injection H as <-. constructor.
  - destruct (result r) as [[|] d|m] eqn:Hr; simpl; auto.
    destruct (validateModule validate d) as [v|x] eqn:Hv; simpl in H;
      [|discriminate].
    destruct (validateEach validate rest) as [vs|x]; simpl in H; [|discriminate].
    injection H as <-. constructor; [|now apply IH].
    simpl. split; [reflexivity|]. exists d. split; [exact Hr|].
    exact (validateModule_verdict _ _ Hv).
Qed.


Lemma includes_app x a b : includes x (a ++ b) = includes x a || includes x b.
Proof. apply existsb_app. Qed.

Lemma indexOf_none x args : ~ In x args -> indexOf x args = None.
Proof.
  induction args as [|a rest IH]; simpl; [reflexivity|]. intros H.
  destruct (String.eqb a x) eqn:E.
  - apply String.eqb_eq in E. tauto.
  - rewrite IH; tauto.
Qed.

Lemma indexOf_bound x args : forall i,
  indexOf x args = Some i -> (i < length args)%nat.
Proof.
  induction args as [|a rest IH]; simpl; intros i; [discriminate|].
  destruct (String.eqb a x); [intros [= <-]; lia|].
  destruct (indexOf x rest) as [j|]; [|discriminate].
  intros [= <-]. specialize (IH j eq_refl). lia.
Qed.

Lemma indexOf_app_found x a b : forall i,
  indexOf x a = Some i -> indexOf x (a ++ b) = Some i.
Proof.
  induction a as [|y rest IH]; simpl; intros i; [discriminate|].
  destruct (String.eqb y x); [trivial|].
  destruct (indexOf x rest) as [j|]; [|discriminate].
  now rewrite (IH j eq_refl).
Qed.

Lemma indexOf_app_none x a b :
  indexOf x a = None ->
  indexOf x (a ++ b) = option_map (Nat.add (length a)) (indexOf x b).
Proof.
  induction a as [|y rest IH]; simpl.
  - intros _. now destruct (indexOf x b).
  - destruct (String.eqb y x); [discriminate|].
    destruct (indexOf x rest) as [j|]; [discriminate|]. intros _.
    rewrite IH by reflexivity. now destruct (indexOf x b).
Qed.

Lemma argument_after_last flag args :
  ~ In flag args -> argument_after flag (args ++ [flag]) = None.
Proof.
  intros H. unfold argument_after.
  rewrite (indexOf_app_none _ _ _ (indexOf_none _ _ H)). cbn [indexOf].
  rewrite String.eqb_refl. cbn [option_map]. apply nth_error_None.
  rewrite length_app. simpl. lia.
Qed.

Lemma argument_after_appended flag other args :
  String.eqb other flag = false ->
  argument_after flag (args ++ [other]) = argument_after flag args
  \/ (argument_after flag args = None
      /\ includes flag args = true
      /\ argument_after flag (args ++ [other]) = Some other).
Proof.
  intros Hne. unfold argument_after.
  destruct (indexOf flag args) as [i|] eqn:Hi.
  - rewrite (indexOf_app_found _ _ _ _ Hi).
    pose proof (indexOf_bound _ _ _ Hi) as Hlt.
    destruct (Nat.eq_dec (S i) (length args)) as [He|Hn].
    + right. split; [apply nth_error_None; lia|]. split.
      * clear Hlt He. revert i Hi.
        induction args as [|a rest IH]; simpl; intros i; [discriminate|].
        rewrite (String.eqb_sym flag a). destruct (String.eqb a flag); [trivial|].
        destruct (indexOf flag rest) as [j|]; [|discriminate]. intros _.
        simpl. unfold includes in IH. now apply (IH j).
      * rewrite He, nth_error_app2, Nat.sub_diag by lia. reflexivity.
    + left. apply nth_error_app1. lia.
  - left. rewrite (indexOf_app_none _ _ _ Hi). cbn [indexOf]. now rewrite Hne.
Qed.

Lemma printCatalog_unknown f unified :
  String.eqb f "json" = false -> String.eqb f "legacy" = false ->
  printCatalog (Some f) unified = printCatalog None unified.
Proof. intros H1 H2. unfold printCatalog. now rewrite H1, H2. Qed.

(** X19. A [--module] that ends the command line is ignored: [main] runs
    as if the flag were not there, so that what was meant to scan one
    module goes on to another command, the catalog of the whole
    organization by default. *)
Theorem trailing_module_flag_is_ignored w args t :
  ~ In "--module" args ->
  main validate w (args ++ ["--module"]) t = main validate w args t.
Proof.
  intros Hnot. unfold main.
  rewrite !includes_app, (argument_after_last _ _ Hnot).
  unfold argument_after at 2. rewrite (indexOf_none _ _ Hnot).
  change (includes "--help" ["--module"]) with false.
  change (includes "-h" ["--module"]) with false.
  change (includes "--validate" ["--module"]) with false.
  change (includes "--output" ["--module"]) with false.
  rewrite !orb_false_r.
  destruct (includes "--help" args || includes "-h" args); [reflexivity|].
  destruct (includes "--validate" args); [reflexivity|].
  destruct (argument_after_appended "--output" "--module" args eq_refl)
    as [->|(Hnone & Hin & Hsome)]; [reflexivity|].
  rewrite Hin, Hnone, Hsome.
  destruct (fst (generateUnifiedModules w (new_scanner t))) as [unified|x];
    [|reflexivity].
  cbn [bind]. now rewrite printCatalog_unknown by reflexivity.
Qed.

Lemma catalogEntry_returns_iff r :
  (forall d, r = Success Central d -> exists props, d = VObject props) ->
  returns (catalogEntry r) <-> converts r = true.
Proof.
  intros Hobj. destruct r as [[|] d|m]; simpl.
  - destruct (convertToLegacyFormat d) as [l|x] eqn:Hl; simpl.
    + destruct (convert_entry d l Hl) as (props & -> & _). simpl.
      split; [reflexivity | intros _; eexists; reflexivity].
    + split; [intros [o Ho]; discriminate | discriminate].
  - destruct (Hobj d eq_refl) as [props ->]. simpl.
    split; [reflexivity | intros _; eexists; reflexivity].
  - split; [reflexivity | intros _; eexists; reflexivity].
Qed.

Lemma collectModules_returns_iff results :
  Forall (fun r => forall d, result r = Success Central d ->
                             exists props, d = VObject props) results ->
  returns (collectModules results)
  <-> Forall (fun r => converts (result r) = true) results.
Proof.
  induction 1 as [|r rest Hr _ IH]; simpl.
  - split; [constructor | intros _; now exists []].
  - pose proof (catalogEntry_returns_iff (result r) Hr) as Hc.
    destruct (catalogEntry (result r)) as [o|x]; simpl.
    + assert (converts (result r) = true) as Hconv
        by (apply Hc; eexists; reflexivity).
      destruct (collectModules rest) as [es|y]; simpl.
      * split; [|intros _; eexists; reflexivity].
        intros _. constructor; [exact Hconv|]. apply IH. eexists. reflexivity.
      * split; [intros [? ?]; discriminate|].
        intros Hall. inversion Hall as [|? ? _ Hrest]; subst.
        apply IH in Hrest. destruct Hrest; discriminate.
    + split; [intros [? ?]; discriminate|].
      intros Hall. inversion Hall as [|? ? Hhead _]; subst.
      apply Hc in Hhead. destruct Hhead; discriminate.
Qed.

(** X20. The exit code of the catalog command, for the formats [json] and
    [legacy]: it is 0 exactly when the converter returns on every
    descriptor that the scan read from a [module.json]. One descriptor on
    which it throws makes the command end with the code 1 and no catalog,
    whatever the other repositories hold. *)
Theorem catalog_exit_code w args t f :
  includes "--help" args || includes "-h" args || includes "--validate" args
    = false ->
  argument_after "--module" args = None ->
  includes "--output" args = true ->
  argument_after "--output" args = Some f ->
  f = "json" \/ f = "legacy" ->
  code (main validate w args t) = 0
  <-> Forall (fun r => converts (result r) = true)
             (fst (scanAllModules w (new_scanner t))).
Proof.
  intros Hflags Hmod Hout Hf Hfmt.
  apply orb_false_elim in Hflags as [Hhelp Hval].
  unfold main. rewrite Hhelp, Hval, Hmod, Hout, Hf.
  rewrite <- collectModules_returns_iff.
  2:{ rewrite scanAllModules_unfold. apply scanEach_central_objects.
      intros k c Hk. simpl in Hk. rewrite lookup_empty in Hk. discriminate. }
  unfold generateUnifiedModules.
  destruct (scanAllModules w (new_scanner t)) as [results p1]. simpl.
  destruct (collectModules results) as [es|x]; simpl.
  - split; [intros _; eexists; reflexivity|]. intros _.
    destruct Hfmt as [-> | ->]; reflexivity.
  - split; [discriminate | intros [? ?]; discriminate].
Qed.

End CommandLine.

Section ValidatorCommandLine.
Context {numbers : Numbers} {rt : Runtime}.
Variable validate : value -> bool.

(** ** The commands of the validator *)

Lemma validateText_true t :
  validateText validate t = true
  <-> exists d, t = Document d /\ validate d = true
                /\ returns (performSemanticValidation d).
Proof.
  unfold validateText. destruct t as [|m|d]; cbn [JSON_parse bind].
  - split; [discriminate | intros (d & H & _); discriminate].
  - split; [discriminate | intros (d & H & _); discriminate].
  - unfold validateModule. destruct (validate d) eqn:Hv; cbn [negb].
    + destruct (performSemanticValidation d) as [ws|x] eqn:Hws; cbn [bind fst].
      * split; [|reflexivity]. intros _. exists d.
        split; [reflexivity|]. split; [exact Hv|]. now exists ws.
      * split; [discriminate|]. intros (d' & [= <-] & _ & [ws H]). congruence.
    + split; [discriminate|]. intros (d' & [= <-] & H & _). congruence.
Qed.

(** X21. What the validator accepts. A file is reported valid exactly when
    it exists, can be read and parsed, the schema accepts the document, and
    the convention checks return on it; a URL, exactly when the request
    gets a body with the same three properties, whatever the status of the
    response; it is never reported valid when the request cannot be
    made. *)
Theorem valid_exactly_when files web source :
  (validateFromFile validate files source = true
   <-> exists d, files source = FileText (Document d)
                 /\ validate d = true
                 /\ returns (performSemanticValidation d))
  /\ (validateFromUrl validate web source = Normal true
      <-> exists d, web source = UrlBody (Document d)
                    /\ validate d = true
                    /\ returns (performSemanticValidation d)).
Proof.
  unfold validateFromFile, validateFromUrl. split.
  - destruct (files source) as [|m|t].
    + split; [discriminate | intros (d & H & _); discriminate].
    + split; [discriminate | intros (d & H & _); discriminate].
    + rewrite validateText_true. split; intros (d & H & Hd).
      * exists d. now subst.
      * exists d. injection H as ->. auto.
  - destruct (web source) as [m|m|t].
    + split; [discriminate | intros (d & H & _); discriminate].
    + split; [discriminate | intros (d & H & _); discriminate].
    + split.
      * intros [= H]. apply validateText_true in H as (d & -> & Hd). now exists d.
      * intros (d & [= ->] & Hd). f_equal. apply validateText_true. now exists d.
Qed.


End ValidatorCommandLine.

Section LandingPage.
Context {numbers : Numbers} {rt : Runtime}.
Import ModulesLoader.
Variable cards : list (string * value) -> value -> completion string.

(** ** The landing page *)

Lemma loadModules_fails r page :
  fails cards r = true ->
  loadModules cards r page = handleError (showLoading page).
Proof.
  unfold fails, loadModules. destruct r as [|s| |data]; try reflexivity.
  destruct (renderModules cards data) as [[|html]|x]; [discriminate..|reflexivity].
Qed.

Lemma retryCount_set n page : retryCount (set_retryCount n page) = n.
Proof. reflexivity. Qed.

(** X23. After a run of [loadModules], one panel of the page is displayed
    and the three others are hidden. It is the loading panel exactly when
    another run is scheduled, and the error panel only when the response
    failed. *)
Theorem one_panel_is_displayed r page :
  exists panel,
    displayed (fst (loadModules cards r page)) = [panel]
    /\ (panel = "loading" <-> snd (loadModules cards r page) = true)
    /\ (panel = "error" -> fails cards r = true)
    /\ (fails cards r = false -> panel = "courses-grid" \/ panel = "empty").
Proof.
  destruct (fails cards r) eqn:Hf.
  - rewrite (loadModules_fails _ _ Hf). unfold handleError.
    cbn [retryCount set_retryCount].
    destruct (S (retryCount (showLoading page)) <? maxRetries)%nat.
    + exists "loading". repeat split; auto; discriminate.
    + exists "error". repeat split; auto; discriminate.
  - unfold fails in Hf. unfold loadModules. destruct r as [|s| |data];
      try discriminate Hf.
    destruct (renderModules cards data) as [[|html]|x]; [| |discriminate Hf].
    + exists "empty". repeat split; auto; discriminate.
    + exists "courses-grid". repeat split; auto; discriminate.
Qed.

(** X24. The retries are bounded. When every response fails, the loader
    gives up after [maxRetries - retryCount] requests, and after one when
    the counter has reached the maximum already, as it has once the error
    panel is shown: it then displays the error panel and schedules nothing
    more. A page that starts with the counter at 0 makes three requests. *)
Theorem retries_are_bounded responses : forall page,
  Forall (fun r => fails cards r = true) responses ->
  (Nat.max 1 (maxRetries - retryCount page) <= length responses)%nat ->
  autoload cards responses page
  = (showError
       (set_retryCount
          (retryCount page + Nat.max 1 (maxRetries - retryCount page)) page),
     skipn (Nat.max 1 (maxRetries - retryCount page)) responses).
Proof.
  induction responses as [|r rest IH]; intros page Hall Hlen.
  - simpl in Hlen. lia.
  - inversion Hall as [|? ? Hr Hrest]; subst.
    cbn [autoload]. rewrite (loadModules_fails _ _ Hr). unfold handleError.
    rewrite !retryCount_set. unfold maxRetries in *.
    change (retryCount (showLoading page)) with (retryCount page).
    cbn [length] in Hlen.
    destruct (S (retryCount page) <? 3)%nat eqn:Hlt.
    + apply Nat.ltb_lt in Hlt.
      rewrite IH; [|exact Hrest|rewrite retryCount_set; lia].
      rewrite !retryCount_set.
      replace (Nat.max 1 (3 - retryCount page))
        with (S (Nat.max 1 (3 - S (retryCount page)))) by lia.
      cbn [skipn]. f_equal. unfold showError, show, set_retryCount. cbn.
      f_equal. lia.
    + apply Nat.ltb_ge in Hlt.
      replace (Nat.max 1 (3 - retryCount page)) with 1%nat by lia.
      cbn [skipn]. f_equal. unfold showError, show, set_retryCount. cbn.
      f_equal. lia.
Qed.

Lemma filter_entries_none entries :
  Forall (fun entry => is_active entry = Normal false) entries ->
  filter_entries is_active entries = Normal [].
Proof.
  induction 1 as [|entry rest He _ IH]; simpl; [reflexivity|].
  now rewrite He, IH.
Qed.

Lemma indexed_snd {A : Type} (l : list A) : forall i, map snd (indexed i l) = l.
Proof. induction l as [|x rest IH]; intros i; simpl; [|rewrite IH]; reflexivity. Qed.

Lemma forall_indexed {A : Type} (P : A -> Prop) (l : list A) : forall i,
  Forall P l -> Forall (fun entry => P (snd entry)) (indexed i l).
Proof.
  intros i H. revert i. induction H; intros i; simpl; constructor; auto.
Qed.

Lemma converted_entry_status d e :
  catalogEntry (Success ModuleJson d) = Normal (Some e) ->
  nullish e = false /\ own e "status" = VUndefined.
Proof.
  simpl. destruct (convertToLegacyFormat d) as [l|x] eqn:Hl; simpl; [|discriminate].
  rewrite (convert_fields d l Hl). simpl. intros [= <-]. split; reflexivity.
Qed.

(** X25. The landing page shows no course of a catalog made of converted
    descriptors. The entry that [convertToLegacyFormat] builds has no
    property [status], and the page keeps the modules whose [status] is
    [active]: given a catalog whose modules are such entries, it displays
    the empty panel. *)
Theorem converted_entries_are_not_shown data entries :
  own data "modules" = VArray entries ->
  Forall (fun e => exists d,
            catalogEntry (Success ModuleJson d) = Normal (Some e)) entries ->
  renderModules cards data = Normal Empty.
Proof.
  intros Hmodules Hall. unfold renderModules.
  rewrite (get_returns _ _ (own_array_object _ _ _ Hmodules)), Hmodules.
  cbn [bind truthy negb orb Object_entries].
  destruct (length (indexed 0 entries) =? 0)%nat; [reflexivity|].
  rewrite filter_entries_none; [reflexivity|].
  apply (forall_indexed (fun e => is_active ("", e) = Normal false)).
  eapply List.Forall_impl; [|exact Hall].
  intros e [d He]. destruct (converted_entry_status d e He) as [Hobj Hstatus].
  unfold is_active. cbn [snd]. now rewrite (get_returns _ _ Hobj), Hstatus.
Qed.

End LandingPage.

(** ** The further scenarios, evaluated *)

(** Of the five repositories of [Scenario.plain], the four modules are
    kept, in listing order. *)
Lemma getRepositories_keeps_mod_names_witness :
  fst (getRepositories Scenario.plain ORG_NAME (new_scanner 0))
  = List.filter (fun n => startsWith "mod_" n)
      ["mod_linux_base"; "infotecha"; "mod_docker"; "mod_rust"; "mod_python"].
Proof.
  assert (Hl : listing Scenario.plain
               = ListingOf (VArray [ VObject [("name", VString "mod_linux_base")];
                                     VObject [("name", VString "infotecha")];
                                     VObject [("name", VString "mod_docker")];
                                     VObject [("name", VString "mod_rust")];
                                     VObject [("name", VString "mod_python")] ]))
    by by_evaluation.
  refine (proj2 (getRepositories_keeps_mod_names Scenario.plain ORG_NAME
                   (new_scanner 0)) _ _ Hl _).
  repeat (constructor; [by_evaluation|]). constructor.
Defined.

(** In [Cases.nameless] the second repository has no name: the two modules
    around it are lost with it. *)
Lemma getRepositories_all_or_nothing_witness :
  fst (getRepositories Cases.nameless ORG_NAME (new_scanner 0)) = [].
Proof.
  refine (getRepositories_all_or_nothing Cases.nameless ORG_NAME (new_scanner 0)
            _ eq_refl _).
  apply Exists_cons_tl, Exists_cons_hd. intros s. vm_compute. discriminate.
Defined.

(** Scanning [mod_python] after [mod_linux_base] leaves the entry of
    [mod_linux_base] in the cache. *)
Lemma scanModule_touches_one_entry_witness :
  let p := snd (scanModule Scenario.plain "mod_linux_base" (new_scanner 0)) in
  cache (snd (scanModule Scenario.plain "mod_python" p)) !! cacheKey "mod_linux_base"
  = cache p !! cacheKey "mod_linux_base".
Proof.
  intros p.
  refine (proj1 (scanModule_touches_one_entry Scenario.plain "mod_python" p) _ _).
  intros H. apply cacheKey_inj in H. discriminate H.
Defined.

(** The first scan of [Scenario.plain] makes five requests: the listing
    and one for each of the four modules. *)
Lemma scanAllModules_request_volume_witness :
  length (requests (snd (scanAllModules Scenario.plain (new_scanner 0)))) = 5%nat.
Proof.
  assert (Hl : fst (getRepositories Scenario.plain ORG_NAME (new_scanner 0))
               = ["mod_linux_base"; "mod_docker"; "mod_rust"; "mod_python"])
    by by_evaluation.
  pose proof (proj2 (scanAllModules_request_volume Scenario.plain (new_scanner 0)))
    as H.
  cbv zeta in H. rewrite Hl in H. apply H.
  - repeat (constructor; [simpl; intuition discriminate|]). constructor.
  - repeat (constructor; [by_evaluation|]). constructor.
Defined.

(** The registry of [Scenario.plain] kept as a sequence resolves
    [mod_docker] as the mapping does. *)
Lemma fallback_reads_entries_only_witness :
  central_entries Scenario.plain
  = central_entries (with_central Cases.sequence Scenario.plain)
  /\ scanCentral Scenario.plain "mod_docker"
     = scanCentral (with_central Cases.sequence Scenario.plain) "mod_docker".
Proof.
  assert (He : central_entries Scenario.plain
               = central_entries (with_central Cases.sequence Scenario.plain))
    by by_evaluation.
  split; [exact He|].
  refine (fallback_reads_entries_only Scenario.plain
            (with_central Cases.sequence Scenario.plain) "mod_docker" _ _ He);
    by_evaluation.
Defined.

(** Without the central file, [mod_docker], whose descriptor cannot be
    fetched, has no configuration. *)
Lemma unusable_registry_is_empty_witness :
  fst (scanModule (with_central CentralMissing Scenario.plain) "mod_docker"
         (new_scanner 0))
  = Failure "No configuration found".
Proof.
  refine (unusable_registry_is_empty (with_central CentralMissing Scenario.plain)
            "mod_docker" (new_scanner 0) _ _ _); by_evaluation.
Defined.

(** In [Cases.holed] the entry of [mod_docker] comes after a [null]: it is
    not found. *)
Lemma null_entry_stops_the_search_witness :
  fst (scanModule (with_central Cases.holed Scenario.plain) "mod_docker"
         (new_scanner 0))
  = Failure "Cannot read properties of null (reading 'content_repo')".
Proof.
  assert (He : central_entries (with_central Cases.holed Scenario.plain)
               = [Scenario.central_entry "linux-old" "mod_linux_base"]
                 ++ VNull :: [Scenario.central_entry "docker" "mod_docker"])
    by by_evaluation.
  refine (null_entry_stops_the_search (with_central Cases.holed Scenario.plain)
            "mod_docker" (new_scanner 0) _ VNull _ _ _ He _ _);
    try by_evaluation.
  constructor; [by_evaluation|constructor].
Defined.

(** The entry of the descriptor of [mod_python]. *)
Lemma legacy_entry_shape_witness :
  exists e,
    convertToLegacyFormat (Scenario.descriptor "python" "py") = Normal e
    /\ (exists props, e = VObject props /\ map fst props = legacy_keys)
    /\ own e "_source" = VUndefined
    /\ truthy (own e "tags") = true.
Proof.
  assert (H : exists e,
             convertToLegacyFormat (Scenario.descriptor "python" "py") = Normal e)
    by (eexists; by_evaluation).
  destruct H as [e H]. exists e. split; [exact H|].
  exact (legacy_entry_shape (Scenario.descriptor "python" "py") e H).
Defined.

(** A descriptor that holds a name and nothing else converts. *)
Lemma convert_returns_exactly_when_witness :
  returns (convertToLegacyFormat (VObject [("name", VString "git")])).
Proof.
  apply (proj2 (convert_returns_exactly_when (VObject [("name", VString "git")]))).
  split; [by_evaluation|]. split; right.
  - by_evaluation.
  - eexists. by_evaluation.
Defined.

(** A name without dashes is its own replacement. *)
Lemma derived_repository_name_witness :
  has_dash "python" = false /\ replace_dashes "python" = "python".
Proof.
  assert (H : has_dash "python" = false) by by_evaluation.
  split; [exact H|].
  exact (proj1 (proj2 (proj2 (derived_repository_name "python"))) H).
Defined.

(** A descriptor that holds a name and nothing else gets the three
    fallbacks. *)
Lemma named_descriptor_converts_witness :
  exists e,
    convertToLegacyFormat (VObject [("name", VString "linux-base")]) = Normal e
    /\ own e "repository" = VString "mod_linux_base"
    /\ own e "url" = VString "https://linux-base.infotecha.ru"
    /\ truthy (own e "subdomain") = true.
Proof.
  destruct (named_descriptor_converts (VObject [("name", VString "linux-base")])
              "linux-base" eq_refl) as (e & He & Hr & Hu & Ht).
  exists e. split; [exact He|]. split; [exact Hr|]. split; [exact Hu|].
  apply Ht. discriminate.
Defined.

(** The catalog of [Scenario.plain]: three entries, each with its tag. *)
Lemma every_entry_is_tagged_witness :
  exists cat,
    fst (generateUnifiedModules Scenario.plain (new_scanner 0)) = Normal cat
    /\ Forall2 (fun r e => exists s d,
                  result r = Success s d
                  /\ own e "_source" = VString (source_tag s))
               (successes (fst (scanAllModules Scenario.plain (new_scanner 0))))
               (modules cat).
Proof.
  assert (H : exists cat,
             fst (generateUnifiedModules Scenario.plain (new_scanner 0)) = Normal cat)
    by (eexists; by_evaluation).
  destruct H as [cat H]. exists cat. split; [exact H|].
  exact (every_entry_is_tagged Scenario.plain (new_scanner 0) cat
           (new_scanner_invariant 0) H).
Defined.

(** The central entry of [mod_docker] in the catalog of [Scenario.plain]. *)
Lemma central_entries_pass_through_witness :
  exists cat,
    fst (generateUnifiedModules Scenario.plain (new_scanner 0)) = Normal cat
    /\ Forall2 (fun r e => forall d,
                  result r = Success Central d ->
                  own e "_source" = VString "central"
                  /\ forall k, k <> "_source" -> own e k = own d k)
               (successes (fst (scanAllModules Scenario.plain (new_scanner 0))))
               (modules cat).
Proof.
  assert (H : exists cat,
             fst (generateUnifiedModules Scenario.plain (new_scanner 0)) = Normal cat)
    by (eexists; by_evaluation).
  destruct H as [cat H]. exists cat. split; [exact H|].
  exact (central_entries_pass_through Scenario.plain (new_scanner 0) cat
           (new_scanner_invariant 0) H).
Defined.

(** The catalog of [Scenario.plain] has no more entries than the four
    modules listed. *)
Lemma catalog_size_witness :
  exists cat,
    fst (generateUnifiedModules Scenario.plain (new_scanner 0)) = Normal cat
    /\ (length (modules cat)
        <= length (fst (getRepositories Scenario.plain ORG_NAME (new_scanner 0))))%nat.
Proof.
  assert (H : exists cat,
             fst (generateUnifiedModules Scenario.plain (new_scanner 0)) = Normal cat)
    by (eexists; by_evaluation).
  destruct H as [cat H]. exists cat. split; [exact H|].
  exact (proj2 (catalog_size Scenario.plain (new_scanner 0) cat H)).
Defined.

(** The integers order the lengths as the naturals do. *)
Lemma integer_lt_nat (a b : nat) :
  num_lt (num_of_nat a) (num_of_nat b) = (a <? b)%nat.
Proof.
  simpl. destruct (a <? b)%nat eqn:E.
  - apply Nat.ltb_lt in E. apply Z.ltb_lt. lia.
  - apply Nat.ltb_ge in E. apply Z.ltb_ge. lia.
Qed.

(** [Cases.conventional] follows the six conventions, and gets no
    warning. *)
Lemma no_warning_exactly_when_conventional_witness :
  performSemanticValidation Cases.conventional = Normal [].
Proof.
  refine (proj2 (no_warning_exactly_when_conventional Cases.conventional
                   "linux-base" "linux-base" "mod_linux_base"
                   "https://linux-base.infotecha.ru" "0.148.0"
                   [VString "linux"; VString "shell"; VString "cli"]
                   _ _ _ _ _ _ integer_lt_nat) _); try by_evaluation.
  split; [reflexivity|]. split; [by_evaluation|]. split; [by_evaluation|].
  split; [by_evaluation|]. split; [right; reflexivity|]. simpl. lia.
Defined.

(** The entry of [Cases.conventional] carries the name and what is derived
    from it. *)
Lemma conventional_descriptor_converts_to_fallbacks_witness :
  exists e,
    convertToLegacyFormat Cases.conventional = Normal e
    /\ own e "subdomain" = VString "linux-base"
    /\ own e "repository" = VString "mod_linux_base"
    /\ own e "url" = VString "https://linux-base.infotecha.ru".
Proof.
  refine (conventional_descriptor_converts_to_fallbacks Cases.conventional
            "linux-base" "linux-base" "mod_linux_base"
            "https://linux-base.infotecha.ru" _ _ _ _ _ _ _); by_evaluation.
Defined.

(** The report on [Scenario.plain] names [mod_linux_base] and
    [mod_python], the two modules with a descriptor of their own. *)
Lemma validateAllModules_reports_descriptors_witness :
  exists report,
    fst (validateAllModules required_types Scenario.plain (new_scanner 0))
    = Normal report
    /\ map validated report = ["mod_linux_base"; "mod_python"]
    /\ Forall2 (fun r v => validated v = repository r
                           /\ exists d, result r = Success ModuleJson d
                                        /\ valid v = required_types d)
               (List.filter (fun r => from_module_json (result r))
                  (fst (scanAllModules Scenario.plain (new_scanner 0))))
               report.
Proof.
  assert (H : exists report,
             fst (validateAllModules required_types Scenario.plain (new_scanner 0))
             = Normal report
             /\ map validated report = ["mod_linux_base"; "mod_python"])
    by (eexists; split; by_evaluation).
  destruct H as (report & H & Hnames). exists report.
  split; [exact H|]. split; [exact Hnames|].
  exact (validateAllModules_reports_descriptors required_types Scenario.plain
           (new_scanner 0) report H).
Defined.


(** [--output json --module] prints the catalog of the organization. *)
Lemma trailing_module_flag_is_ignored_witness :
  main required_types Scenario.plain (["--output"; "json"] ++ ["--module"]) 0
  = main required_types Scenario.plain ["--output"; "json"] 0.
Proof.
  refine (trailing_module_flag_is_ignored required_types Scenario.plain
            ["--output"; "json"] 0 _).
  simpl. intuition discriminate.
Defined.

(** Every descriptor of [Scenario.plain] converts: the catalog command
    exits with the code 0. *)
Lemma catalog_exit_code_witness :
  code (main required_types Scenario.plain ["--output"; "json"] 0) = 0.
Proof.
  refine (proj2 (catalog_exit_code required_types Scenario.plain
                   ["--output"; "json"] 0 "json" _ _ _ _ _) _);
    try by_evaluation.
  - left. reflexivity.
  - forall_by_evaluation.
Defined.

(** The descriptor on [Cases.disk] is valid. *)
Lemma valid_exactly_when_witness :
  validateFromFile required_types Cases.disk "module.json" = true.
Proof.
  apply (proj2 (proj1 (valid_exactly_when required_types Cases.disk Cases.no_web
                         "module.json"))).
  exists Cases.conventional. split; [by_evaluation|]. split; [by_evaluation|].
  eexists. by_evaluation.
Defined.


(** Three failures from a blank page: the error panel, and the fourth
    response is not asked for. *)
Lemma retries_are_bounded_witness :
  let responses :=
    [ModulesLoader.NetworkError; ModulesLoader.HttpError 503;
     ModulesLoader.NotJson; ModulesLoader.NetworkError] in
  ModulesLoader.displayed
    (fst (ModulesLoader.autoload Cases.keys responses Cases.blank)) = ["error"]
  /\ snd (ModulesLoader.autoload Cases.keys responses Cases.blank)
     = [ModulesLoader.NetworkError].
Proof.
  intros responses.
  assert (Hall : Forall (fun r => ModulesLoader.fails Cases.keys r = true) responses)
    by (subst responses; repeat (constructor; [by_evaluation|]); constructor).
  assert (Hlen : (Nat.max 1 (ModulesLoader.maxRetries
                             - ModulesLoader.retryCount Cases.blank)
                  <= length responses)%nat)
    by (vm_compute; lia).
  rewrite (retries_are_bounded Cases.keys responses Cases.blank Hall Hlen).
  split; reflexivity.
Defined.

(** The page shows the empty panel for [Cases.served]. *)
Lemma converted_entries_are_not_shown_witness :
  ModulesLoader.renderModules Cases.keys Cases.served
  = Normal ModulesLoader.Empty.
Proof.
  refine (converted_entries_are_not_shown Cases.keys Cases.served
            [Cases.converted] eq_refl _).
  constructor; [|constructor].
  exists (Scenario.descriptor "python" "py"). by_evaluation.
Defined.
